(** * Bike-sharing ETL pipeline (dags/bike_sharing_etl.py)

    A shallow embedding of the four transformation stages of the DAG
    (extract_and_validate, transform_clean_and_denormalize,
    transform_feature_engineering, transform_aggregations) and the
    properties their hand-off tables satisfy.

    Conventions of the embedding:
    - a DataFrame is the list of its rows, in index order; every stage output
      has a fixed record type for its rows (the columns the stage leaves in
      the frame);
    - int64 columns are [Z] values and every reduction on them wraps around
      modulo 2^64 ([wrap64]); float64 columns are binary64 primitive floats;
    - a raised exception is a [Raise] result; the [try ... except: raise]
      wrapper of each task re-raises, so it is the identity on results;
    - the XCom hand-off (to_json / read_json) is the scheduler's channel and
      is taken as the identity on tables. *)

From Stdlib Require Import String ZArith List Bool Permutation Sorted Lia.
From Stdlib Require Import Floats.PrimFloat.
Import ListNotations.
Open Scope Z_scope.

(* ------------------------------------------------------------------ *)
(** ** Calendar dates (the datetime64 column [dteday]) *)

Module Date.

(** A parsed calendar date ([pd.to_datetime] of a YYYY-MM-DD field). *)
Record t := mk { year : Z; month : Z; day : Z }.

Definition eqb (a b : t) : bool :=
  (year a =? year b) && (month a =? month b) && (day a =? day b).

(** Chronological order: the order of the (year, month, day) triples. *)
Definition ltb (a b : t) : bool :=
  (year a <? year b)
  || ((year a =? year b)
      && ((month a <? month b)
          || ((month a =? month b) && (day a <? day b)))).

Definition is_leap (y : Z) : bool :=
  (y mod 4 =? 0) && (negb (y mod 100 =? 0) || (y mod 400 =? 0)).

Definition days_before_year (y : Z) : Z :=
  let p := y - 1 in p * 365 + p / 4 - p / 100 + p / 400.

Definition days_before_month_table : list Z :=
  [0; 31; 59; 90; 120; 151; 181; 212; 243; 273; 304; 334].

Definition days_before_month (y m : Z) : Z :=
  nth (Z.to_nat (m - 1)) days_before_month_table 0
  + (if (2 <? m) && is_leap y then 1 else 0).

(** Proleptic Gregorian ordinal, 0001-01-01 being day 1. *)
Definition ymd2ord (y m d : Z) : Z :=
  days_before_year y + days_before_month y m + d.

Definition toordinal (a : t) : Z := ymd2ord (year a) (month a) (day a).

(** Ordinal of the Monday that starts ISO week 1 of year [y]. *)
Definition isoweek1monday (y : Z) : Z :=
  let firstday := ymd2ord y 1 1 in
  let firstweekday := (firstday + 6) mod 7 in
  let week1monday := firstday - firstweekday in
  if 3 <? firstweekday then week1monday + 7 else week1monday.

(** ISO-8601 calendar of a date: (ISO year, ISO week, ISO weekday). *)
Definition isocalendar (a : t) : Z * Z * Z :=
  let y := year a in
  let today := toordinal a in
  let week1monday := isoweek1monday y in
  let week := (today - week1monday) / 7 in
  let wday := (today - week1monday) mod 7 in
  if week <? 0 then
    let w1 := isoweek1monday (y - 1) in
    (y - 1, (today - w1) / 7 + 1, (today - w1) mod 7 + 1)
  else if (52 <=? week) && (isoweek1monday (y + 1) <=? today) then
    (y + 1, 1, wday + 1)
  else (y, week + 1, wday + 1).

Definition iso_year (a : t) : Z := fst (fst (isocalendar a)).
Definition iso_week (a : t) : Z := snd (fst (isocalendar a)).

(** Column reductions [min()] and [max()]; [None] is NaT (empty column). *)
Definition min_of (l : list t) : option t :=
  match l with
  | [] => None
  | d :: ds => Some (fold_left (fun m x => if ltb x m then x else m) ds d)
  end.

Definition max_of (l : list t) : option t :=
  match l with
  | [] => None
  | d :: ds => Some (fold_left (fun m x => if ltb m x then x else m) ds d)
  end.

End Date.

(* ------------------------------------------------------------------ *)
(** ** Exceptions and stage results *)

Inductive exn : Type :=
| ValueError_columns (expected found : list string)
| ValueError_date_range (min_date max_date : option Date.t)
| IndexError.

Inductive result (A : Type) : Type :=
| Ok (a : A)
| Raise (e : exn).
Arguments Ok {A} a.
Arguments Raise {A} e.

Definition bind {A B : Type} (m : result A) (k : A -> result B) : result B :=
  match m with
  | Ok a => k a
  | Raise e => Raise e
  end.

Notation "x <- m ;; k" := (bind m (fun x => k))
  (at level 61, m at next level, right associativity).

Fixpoint traverse {A B : Type} (f : A -> result B) (l : list A)
  : result (list B) :=
  match l with
  | [] => Ok []
  | a :: l' => b <- f a ;; bs <- traverse f l' ;; Ok (b :: bs)
  end.

(* ------------------------------------------------------------------ *)
(** ** int64 columns *)

Definition wrap64 (z : Z) : Z := (z + 2 ^ 63) mod 2 ^ 64 - 2 ^ 63.

Definition add64 (a b : Z) : Z := wrap64 (a + b).

(** [Series.sum()] on an int64 (or boolean) column. *)
Definition sum64 (l : list Z) : Z := fold_left add64 l 0.

(* ------------------------------------------------------------------ *)
(** ** DataFrame operations used by the stages *)

Section Frames.

Context {K A : Type}.
Variable eqb : K -> K -> bool.
Variable ltb : K -> K -> bool.
Variable key : A -> K.

(** [drop_duplicates(subset=key, keep='first')]: a row is dropped when its
    key has been seen on an earlier row. *)
Fixpoint drop_duplicates_from (seen : list K) (df : list A) : list A :=
  match df with
  | [] => []
  | r :: rest =>
      if existsb (eqb (key r)) seen
      then drop_duplicates_from seen rest
      else r :: drop_duplicates_from (key r :: seen) rest
  end.

Definition drop_duplicates (df : list A) : list A :=
  drop_duplicates_from [] df.

Fixpoint insert_sorted (k : K) (l : list K) : list K :=
  match l with
  | [] => [k]
  | x :: l' => if ltb x k then x :: insert_sorted k l' else k :: l
  end.

Definition sort_keys (l : list K) : list K :=
  fold_right insert_sorted [] l.

End Frames.

(** The distinct values of a key column, ascending. *)
Definition unique_sorted {K : Type} (eqb ltb : K -> K -> bool) (l : list K)
  : list K :=
  sort_keys ltb (drop_duplicates eqb (fun k => k) l).

(** [df.groupby(key)]: one group per distinct key, keys ascending, each
    group holding its rows in frame order. *)
Definition groupby {K A : Type} (eqb ltb : K -> K -> bool) (key : A -> K)
  (df : list A) : list (K * list A) :=
  map (fun k => (k, filter (fun r => eqb (key r) k) df))
      (unique_sorted eqb ltb (map key df)).

(** A dict literal and [Series.map(dict)]: a key absent from the dict maps
    to a missing value. *)
Fixpoint dict_get {V : Type} (d : list (Z * V)) (k : Z) : option V :=
  match d with
  | [] => None
  | (k', v) :: d' => if k =? k' then Some v else dict_get d' k
  end.

(** [Series.mode()]: the values of highest frequency, ascending. *)
Definition count (v : Z) (l : list Z) : nat :=
  length (filter (Z.eqb v) l).

Definition max_count (l : list Z) : nat :=
  fold_right (fun v m => Nat.max (count v l) m) 0%nat l.

Definition mode (l : list Z) : list Z :=
  unique_sorted Z.eqb Z.ltb
    (filter (fun v => Nat.eqb (count v l) (max_count l)) l).

(** The aggregation lambda on the weather column of one group:
    [x.mode()[0] if not x.mode().empty else x.iloc[0]]; [None] is the
    IndexError of [x.iloc[0]] on an empty group. *)
Definition most_common (x : list Z) : option Z :=
  match mode x with
  | m :: _ => Some m
  | [] => hd_error x
  end.

(* ------------------------------------------------------------------ *)
(** ** Row records *)

(** One row of hour.csv: the 17 expected columns, in order. The code, flag
    and count columns are int64 and the four climate readings float64, as
    [read_csv] types them for this file; every row carries a parsed date. *)
Record Row := mkRow {
  instant : Z;
  dteday : Date.t;
  season : Z;
  yr : Z;
  mnth : Z;
  hr : Z;
  holiday : Z;
  weekday : Z;
  workingday : Z;
  weathersit : Z;
  temp : float;
  atemp : float;
  hum : float;
  windspeed : float;
  casual : Z;
  registered : Z;
  cnt : Z
}.

Definition expected_columns : list string :=
  ["instant"; "dteday"; "season"; "yr"; "mnth"; "hr";
   "holiday"; "weekday"; "workingday"; "weathersit";
   "temp"; "atemp"; "hum"; "windspeed";
   "casual"; "registered"; "cnt"]%string.

(** Cleaner output: the 17 columns plus the four denormalized ones. *)
Record CleanRow := mkClean {
  base : Row;
  temp_celsius : float;
  atemp_celsius : float;
  humidity_pct : float;
  windspeed_kmh : float
}.

(** Enricher output: the cleaned columns plus six derived ones; a label
    column holds [None] where [Series.map] found no entry. *)
Record EnrichedRow := mkEnriched {
  clean : CleanRow;
  is_peak_hour : bool;
  is_weekend : bool;
  season_name : option string;
  weather_desc : option string;
  day_name : option string;
  month_name : option string
}.

(** The frame the Aggregator pushes as final_data: [year] and [week] added. *)
Record FinalRow := mkFinal {
  enriched : EnrichedRow;
  year : Z;
  week : Z
}.

Definition row_of (e : EnrichedRow) : Row := base (clean e).

Module Daily.
Record t := mk {
  date : Date.t;
  total_rentals : Z;
  casual_users : Z;
  registered_users : Z;
  avg_temp_celsius : float;
  avg_humidity_pct : float;
  avg_windspeed_kmh : float;
  most_common_weather : Z;
  peak_hours_count : Z;
  is_weekend : bool
}.
End Daily.

Module Weekly.
Record t := mk {
  year : Z;
  week : Z;
  total_rentals : Z;
  casual_users : Z;
  registered_users : Z;
  avg_temp_celsius : float;
  avg_humidity_pct : float;
  avg_windspeed_kmh : float;
  week_start : option Date.t;
  week_end : option Date.t
}.
End Weekly.

(* ------------------------------------------------------------------ *)
(** ** Task 1: extract_and_validate *)

Record Validated := mkValidated {
  validated_data : list Row;
  validated_records : nat;
  date_range : option Date.t * option Date.t
}.

(** [min_date.year >= 2011 and max_date.year <= 2012]; the year of NaT is
    NaN, which compares false. *)
Definition date_range_ok (min_date max_date : option Date.t) : bool :=
  match min_date, max_date with
  | Some mn, Some mx => (2011 <=? Date.year mn) && (Date.year mx <=? 2012)
  | _, _ => false
  end.

(** [columns] is the header of the file read and [df] its rows. *)
Definition extract_and_validate (columns : list string) (df : list Row)
  : result Validated :=
  if list_eq_dec string_dec columns expected_columns then
    let min_date := Date.min_of (map dteday df) in
    let max_date := Date.max_of (map dteday df) in
    if negb (date_range_ok min_date max_date)
    then Raise (ValueError_date_range min_date max_date)
    else Ok {| validated_data := df;
               validated_records := length df;
               date_range := (min_date, max_date) |}
  else Raise (ValueError_columns expected_columns columns).

(* ------------------------------------------------------------------ *)
(** ** Task 2: transform_clean_and_denormalize *)

Record Cleaned := mkCleaned {
  cleaned_data : list CleanRow;
  cleaned_records : nat;
  duplicates_removed : Z
}.

(** Equality of the composite key (dteday, hr). *)
Definition date_hour_eqb (a b : Date.t * Z) : bool :=
  Date.eqb (fst a) (fst b) && (snd a =? snd b).

Definition date_hour (r : Row) : Date.t * Z := (dteday r, hr r).

(** [astype(int)] on a column that holds int64 values. *)
Definition astype_int (z : Z) : Z := z.

Definition coerce_types (r : Row) : Row :=
  {| instant := instant r;
     dteday := dteday r;
     season := astype_int (season r);
     yr := astype_int (yr r);
     mnth := astype_int (mnth r);
     hr := astype_int (hr r);
     holiday := astype_int (holiday r);
     weekday := astype_int (weekday r);
     workingday := astype_int (workingday r);
     weathersit := astype_int (weathersit r);
     temp := temp r;
     atemp := atemp r;
     hum := hum r;
     windspeed := windspeed r;
     casual := casual r;
     registered := registered r;
     cnt := cnt r |}.

Definition denormalize (r : Row) : CleanRow :=
  {| base := r;
     temp_celsius := (temp r * 41)%float;
     atemp_celsius := (atemp r * 50)%float;
     humidity_pct := (hum r * 100)%float;
     windspeed_kmh := (windspeed r * 67)%float |}.

(** The body of the task on a frame whose rows expose the 17 source columns
    through [row]: deduplicate, coerce, then assign the four climate
    columns (an assignment creates the column or overwrites it). *)
Definition clean_frame {R : Type} (row : R -> Row) (df : list R) : Cleaned :=
  let initial_count := Z.of_nat (length df) in
  let df1 := drop_duplicates date_hour_eqb (fun r => date_hour (row r)) df in
  let removed := initial_count - Z.of_nat (length df1) in
  let df2 := map (fun r => denormalize (coerce_types (row r))) df1 in
  {| cleaned_data := df2;
     cleaned_records := length df2;
     duplicates_removed := removed |}.

Definition transform_clean_and_denormalize (df : list Row) : result Cleaned :=
  Ok (clean_frame (fun r => r) df).


(* ------------------------------------------------------------------ *)
(** ** Task 3: transform_feature_engineering *)

Record Featured := mkFeatured {
  featured_data : list EnrichedRow;
  featured_records : nat;
  total_columns : nat
}.

Definition peak_hour (x : Z) : bool :=
  ((7 <=? x) && (x <=? 9)) || ((17 <=? x) && (x <=? 19)).

Definition weekend_day (x : Z) : bool := existsb (Z.eqb x) [0; 6].

Definition season_map : list (Z * string) :=
  [(1, "Spring"); (2, "Summer"); (3, "Fall"); (4, "Winter")]%string.

Definition weather_map : list (Z * string) :=
  [(1, "Clear/Partly Cloudy"); (2, "Mist/Cloudy");
   (3, "Light Rain/Snow"); (4, "Heavy Rain/Snow")]%string.

Definition day_map : list (Z * string) :=
  [(0, "Sunday"); (1, "Monday"); (2, "Tuesday"); (3, "Wednesday");
   (4, "Thursday"); (5, "Friday"); (6, "Saturday")]%string.

Definition month_map : list (Z * string) :=
  [(1, "January"); (2, "February"); (3, "March"); (4, "April");
   (5, "May"); (6, "June"); (7, "July"); (8, "August");
   (9, "September"); (10, "October"); (11, "November");
   (12, "December")]%string.

Definition enrich (c : CleanRow) : EnrichedRow :=
  {| clean := c;
     is_peak_hour := peak_hour (hr (base c));
     is_weekend := weekend_day (weekday (base c));
     season_name := dict_get season_map (season (base c));
     weather_desc := dict_get weather_map (weathersit (base c));
     day_name := dict_get day_map (weekday (base c));
     month_name := dict_get month_map (mnth (base c)) |}.

Definition transform_feature_engineering (df : list CleanRow)
  : result Featured :=
  let df' := map enrich df in
  Ok {| featured_data := df';
        featured_records := length df';
        total_columns := 27 |}.

(* ------------------------------------------------------------------ *)
(** ** Task 4: transform_aggregations *)

Record Aggregated := mkAggregated {
  final_data : list FinalRow;
  daily_agg : list Daily.t;
  weekly_agg : list Weekly.t;
  daily_records : nat;
  weekly_records : nat
}.

(** The composite key (year, week) and its ascending order. *)
Definition year_week_eqb (a b : Z * Z) : bool :=
  (fst a =? fst b) && (snd a =? snd b).

Definition year_week_ltb (a b : Z * Z) : bool :=
  (fst a <? fst b) || ((fst a =? fst b) && (snd a <? snd b)).

Definition year_week (r : FinalRow) : Z * Z := (year r, week r).

(** [df['year'] = df['dteday'].dt.year] and
    [df['week'] = df['dteday'].dt.isocalendar().week]. *)
Definition add_year_week (e : EnrichedRow) : FinalRow :=
  {| enriched := e;
     year := Date.year (dteday (row_of e));
     week := Date.iso_week (dteday (row_of e)) |}.

Section Aggregations.

(** The 'mean' reduction of a float64 column of one group. *)
Variable mean : list float -> float.

Definition daily_of (g : Date.t * list EnrichedRow) : result Daily.t :=
  let (d, x) := g in
  match most_common (map (fun e => weathersit (row_of e)) x) with
  | None => Raise IndexError
  | Some w =>
      Ok {| Daily.date := d;
            Daily.total_rentals := sum64 (map (fun e => cnt (row_of e)) x);
            Daily.casual_users := sum64 (map (fun e => casual (row_of e)) x);
            Daily.registered_users :=
              sum64 (map (fun e => registered (row_of e)) x);
            Daily.avg_temp_celsius :=
              mean (map (fun e => temp_celsius (clean e)) x);
            Daily.avg_humidity_pct :=
              mean (map (fun e => humidity_pct (clean e)) x);
            Daily.avg_windspeed_kmh :=
              mean (map (fun e => windspeed_kmh (clean e)) x);
            Daily.most_common_weather := w;
            Daily.peak_hours_count :=
              sum64 (map (fun e => Z.b2z (is_peak_hour e)) x);
            Daily.is_weekend := existsb is_weekend x |}
  end.

Definition weekly_of (g : (Z * Z) * list FinalRow) : Weekly.t :=
  let (k, x) := g in
  let rows := map (fun f => row_of (enriched f)) x in
  {| Weekly.year := fst k;
     Weekly.week := snd k;
     Weekly.total_rentals := sum64 (map cnt rows);
     Weekly.casual_users := sum64 (map casual rows);
     Weekly.registered_users := sum64 (map registered rows);
     Weekly.avg_temp_celsius :=
       mean (map (fun f => temp_celsius (clean (enriched f))) x);
     Weekly.avg_humidity_pct :=
       mean (map (fun f => humidity_pct (clean (enriched f))) x);
     Weekly.avg_windspeed_kmh :=
       mean (map (fun f => windspeed_kmh (clean (enriched f))) x);
     Weekly.week_start := Date.min_of (map dteday rows);
     Weekly.week_end := Date.max_of (map dteday rows) |}.

Definition transform_aggregations (df : list EnrichedRow)
  : result Aggregated :=
  daily <- traverse daily_of
             (groupby Date.eqb Date.ltb (fun e => dteday (row_of e)) df) ;;
  let df' := map add_year_week df in
  let weekly :=
    map weekly_of (groupby year_week_eqb year_week_ltb year_week df') in
  Ok {| final_data := df';
        daily_agg := daily;
        weekly_agg := weekly;
        daily_records := length daily;
        weekly_records := length weekly |}.

End Aggregations.

(* ------------------------------------------------------------------ *)
(** ** Vocabulary of the properties *)

(** The exact (unbounded) sum of a column, used to reason about [sum64]. *)
Definition total (l : list Z) : Z := fold_right Z.add 0 l.

(** The row invariant [casual + registered == cnt], the addition being the
    one of int64 columns. *)
Definition counts_consistent (r : Row) : Prop :=
  add64 (casual r) (registered r) = cnt r.



(** Every row is dated in 2011 or 2012. *)
Definition years_supported (df : list Row) : Prop :=
  forall r, In r df ->
    Date.year (dteday r) = 2011 \/ Date.year (dteday r) = 2012.

(** The label domains of the four code columns. *)
Definition season_in_domain (c : CleanRow) : Prop := 1 <= season (base c) <= 4.
Definition weather_in_domain (c : CleanRow) : Prop :=
  1 <= weathersit (base c) <= 4.
Definition weekday_in_domain (c : CleanRow) : Prop :=
  0 <= weekday (base c) <= 6.
Definition month_in_domain (c : CleanRow) : Prop := 1 <= mnth (base c) <= 12.

Definition unmapped_code (c : CleanRow) : Prop :=
  ~ season_in_domain c \/ ~ weather_in_domain c
  \/ ~ weekday_in_domain c \/ ~ month_in_domain c.

(** [l] is [df] with some rows removed, the others in their order. *)
Inductive Subseq {A : Type} : list A -> list A -> Prop :=
| Subseq_nil : Subseq [] []
| Subseq_drop (r : A) (l df : list A) : Subseq l df -> Subseq l (r :: df)
| Subseq_keep (r : A) (l df : list A) : Subseq l df -> Subseq (r :: l) (r :: df).

(** A mean reduction to run the aggregations on concrete frames: the sum
    of the column over its length. *)
Definition naive_mean (l : list float) : float :=
  (fold_left PrimFloat.add l 0 / fold_left (fun n _ => n + 1) l 0)%float.

(** The stages up to the Aggregator, chained as the DAG chains them. *)
Definition clean_enrich_aggregate (mean : list float -> float)
  (df : list Row) : result (Cleaned * Featured * Aggregated) :=
  c <- transform_clean_and_denormalize df ;;
  f <- transform_feature_engineering (cleaned_data c) ;;
  a <- transform_aggregations mean (featured_data f) ;;
  Ok (c, f, a).

(* ------------------------------------------------------------------ *)
(** ** Sample frames *)

Definition sample_row (d : Date.t) (h w c g : Z) (t : float) : Row :=
  {| instant := 1; dteday := d; season := 1; yr := 1; mnth := Date.month d;
     hr := h; holiday := 0; weekday := 1; workingday := 1; weathersit := w;
     temp := t; atemp := t; hum := t; windspeed := t;
     casual := c; registered := g; cnt := c + g |}.

(** Five hours of 2012-01-02 (weather codes 3, 1, 3, 1, 2), a repeated
    reading of hour 8, and one hour of 2012-12-31. *)
Definition sample_rows : list Row :=
  [ sample_row (Date.mk 2012 1 2) 7 3 3 4 0.5;
    sample_row (Date.mk 2012 1 2) 8 1 1 1 0.25;
    sample_row (Date.mk 2012 1 2) 8 2 5 5 0.25;
    sample_row (Date.mk 2012 1 2) 9 3 10 20 0.75;
    sample_row (Date.mk 2012 1 2) 10 1 2 2 0.5;
    sample_row (Date.mk 2012 1 2) 11 2 6 1 0.5;
    sample_row (Date.mk 2012 12 31) 8 2 7 8 0.25 ].

Definition sample_enriched : list EnrichedRow :=
  map (fun r => enrich (denormalize r))
    (drop_duplicates date_hour_eqb date_hour sample_rows).


(** One hour of Monday 2012-01-02 and one hour of Monday 2012-12-31. *)
Definition year_end_rows : list EnrichedRow :=
  map (fun r => enrich (denormalize r))
    [ sample_row (Date.mk 2012 1 2) 8 1 1 1 0.25;
      sample_row (Date.mk 2012 12 31) 8 2 7 8 0.25 ].

(** A cleaned row of 2011-01-01, hour 0, whose season code is 5. *)
Definition season5_row : CleanRow :=
  denormalize
    {| instant := 1; dteday := Date.mk 2011 1 1; season := 5; yr := 0;
       mnth := 1; hr := 0; holiday := 0; weekday := 6; workingday := 0;
       weathersit := 1; temp := 0.25; atemp := 0.25; hum := 0.75;
       windspeed := 0; casual := 3; registered := 13; cnt := 16 |}.

(* ------------------------------------------------------------------ *)
(** ** The task chain of the DAG *)

(** What the four transformation tasks push and return in one run. *)
Record Run := mkRun {
  run_validated : Validated;
  run_cleaned : Cleaned;
  run_featured : Featured;
  run_aggregated : Aggregated
}.

(** [task_extract >> task_clean >> task_features >> task_aggregate]: each
    task reads what its predecessor pushed, and a raise ends the run. The
    last task of the chain, load_to_parquet, only writes files. *)
Definition run_tasks (mean : list float -> float) (columns : list string)
  (df : list Row) : result Run :=
  v <- extract_and_validate columns df ;;
  c <- transform_clean_and_denormalize (validated_data v) ;;
  f <- transform_feature_engineering (cleaned_data c) ;;
  a <- transform_aggregations mean (featured_data f) ;;
  Ok {| run_validated := v; run_cleaned := c;
        run_featured := f; run_aggregated := a |}.

(** A calendar date that exists: what [pd.to_datetime] can return. *)
Definition days_in_month (y m : Z) : Z :=
  if (m =? 2) && Date.is_leap y then 29
  else nth (Z.to_nat (m - 1)) [31; 28; 31; 30; 31; 30; 31; 31; 30; 31; 30; 31] 0.

Definition date_valid (d : Date.t) : bool :=
  (1 <=? Date.month d) && (Date.month d <=? 12)
  && (1 <=? Date.day d) && (Date.day d <=? days_in_month (Date.year d) (Date.month d)).

(* ------------------------------------------------------------------ *)
(** ** explore_data.py: figures read off the three artifacts *)

(** [Series.idxmax()] under the default index: the position of the first
    greatest value; [None] is the ValueError raised on an empty column. *)
Fixpoint argmax_from (best_i : nat) (best : Z) (i : nat) (l : list Z) : nat :=
  match l with
  | [] => best_i
  | x :: l' =>
      if best <? x then argmax_from i x (S i) l'
      else argmax_from best_i best (S i) l'
  end.

Definition idxmax (l : list Z) : option nat :=
  match l with
  | [] => None
  | x :: l' => Some (argmax_from 0 x 1 l')
  end.

Fixpoint argmin_from (best_i : nat) (best : Z) (i : nat) (l : list Z) : nat :=
  match l with
  | [] => best_i
  | x :: l' =>
      if x <? best then argmin_from i x (S i) l'
      else argmin_from best_i best (S i) l'
  end.

Definition idxmin (l : list Z) : option nat :=
  match l with
  | [] => None
  | x :: l' => Some (argmin_from 0 x 1 l')
  end.

(** [Series.max()] and [Series.min()]; [None] is the NaN of an empty
    column. *)
Definition col_max (l : list Z) : option Z :=
  match l with
  | [] => None
  | x :: l' => Some (fold_left Z.max l' x)
  end.

Definition col_min (l : list Z) : option Z :=
  match l with
  | [] => None
  | x :: l' => Some (fold_left Z.min l' x)
  end.

(** [df_daily.loc[df_daily['total_rentals'].idxmax(), 'date']] and its
    [idxmin] twin. *)
Definition busiest_day (df_daily : list Daily.t) : option Date.t :=
  match idxmax (map Daily.total_rentals df_daily) with
  | Some i => option_map Daily.date (nth_error df_daily i)
  | None => None
  end.

Definition quietest_day (df_daily : list Daily.t) : option Date.t :=
  match idxmin (map Daily.total_rentals df_daily) with
  | Some i => option_map Daily.date (nth_error df_daily i)
  | None => None
  end.

(** [df_weekly.loc[df_weekly['total_rentals'].idxmax()]]. *)
Definition best_week (df_weekly : list Weekly.t) : option Weekly.t :=
  match idxmax (map Weekly.total_rentals df_weekly) with
  | Some i => nth_error df_weekly i
  | None => None
  end.

Definition full_cnt (r : FinalRow) : Z := cnt (row_of (enriched r)).

(** [df_full[df_full['is_peak_hour'] == True]['cnt'].sum()] and the same
    with [False]. *)
Definition peak_rentals (df_full : list FinalRow) : Z :=
  sum64 (map full_cnt
           (filter (fun r => Bool.eqb (is_peak_hour (enriched r)) true)
              df_full)).

Definition non_peak_rentals (df_full : list FinalRow) : Z :=
  sum64 (map full_cnt
           (filter (fun r => Bool.eqb (is_peak_hour (enriched r)) false)
              df_full)).

(** The (season_name, cnt) pairs of the rows that have a label: [groupby]
    leaves a row with a missing key out of every group. *)
Definition labelled_counts (df_full : list FinalRow) : list (string * Z) :=
  flat_map (fun r => match season_name (enriched r) with
                     | Some s => [(s, full_cnt r)]
                     | None => []
                     end) df_full.

(** [df_full.groupby('season_name')['cnt'].sum()]. *)
Definition season_totals (df_full : list FinalRow) : list (string * Z) :=
  map (fun g => (fst g, sum64 (map snd (snd g))))
      (groupby String.eqb String.ltb fst (labelled_counts df_full)).

(** [.sort_values(ascending=False)]: greatest total first; among equal
    totals the order is the sort's own, here the order they had. *)
Definition seasonal (df_full : list FinalRow) : list (string * Z) :=
  sort_keys (fun x k => snd k <? snd x) (season_totals df_full).

(** The rows that carry season name [s], and the rows that carry one. *)
Definition labelled_as (s : string) (r : FinalRow) : bool :=
  match season_name (enriched r) with
  | Some s' => String.eqb s' s
  | None => false
  end.

Definition has_season_name (r : FinalRow) : bool :=
  match season_name (enriched r) with
  | Some _ => true
  | None => false
  end.

(* ------------------------------------------------------------------ *)
(** ** Further vocabulary *)

Definition enriched_date (e : EnrichedRow) : Date.t := dteday (row_of e).

Definition weekly_key (w : Weekly.t) : Z * Z := (Weekly.year w, Weekly.week w).

(* ================================================================== *)
(** * Properties *)

(** ** int64 sums *)

Lemma wrap64_idem_add_l (a b : Z) : wrap64 (wrap64 a + b) = wrap64 (a + b).
Proof.
  unfold wrap64.
  replace ((a + 2 ^ 63) mod 2 ^ 64 - 2 ^ 63 + b + 2 ^ 63)
    with ((a + 2 ^ 63) mod 2 ^ 64 + b) by ring.
  rewrite Z.add_mod_idemp_l by lia.
  do 2 f_equal. ring.
Qed.

Lemma wrap64_idem_add_r (a b : Z) : wrap64 (a + wrap64 b) = wrap64 (a + b).
Proof.
  rewrite Z.add_comm, wrap64_idem_add_l. f_equal. ring.
Qed.

Lemma fold_add64_total (l : list Z) (a : Z) :
  fold_left add64 l (wrap64 a) = wrap64 (a + total l).
Proof.
  revert a. induction l as [|x l IH]; intros a; simpl.
  - f_equal. ring.
  - unfold add64 at 2. rewrite wrap64_idem_add_l, IH.
    f_equal. ring.
Qed.

Lemma sum64_total (l : list Z) : sum64 l = wrap64 (total l).
Proof.
  unfold sum64. change 0 with (wrap64 0) at 1.
  now rewrite fold_add64_total.
Qed.

(** Wrapping the partial sums first does not change the wrapped total. *)
Lemma wrap64_total_map_wrap {A : Type} (f : A -> Z) (l : list A) :
  wrap64 (total (map (fun a => wrap64 (f a)) l)) = wrap64 (total (map f l)).
Proof.
  induction l as [|a l IH]; simpl; [reflexivity|].
  rewrite wrap64_idem_add_l.
  rewrite <- wrap64_idem_add_r, IH, wrap64_idem_add_r. reflexivity.
Qed.

Lemma total_map_add {A : Type} (f g : A -> Z) (l : list A) :
  total (map (fun a => f a + g a) l) = total (map f l) + total (map g l).
Proof.
  induction l as [|a l IH]; simpl; [reflexivity | rewrite IH; ring].
Qed.

(** ** Deduplication and grouping *)

Section FrameFacts.

Context {K A : Type}.
Variable eqb : K -> K -> bool.
Variable key : A -> K.
Hypothesis eqb_eq : forall a b, eqb a b = true <-> a = b.

Lemma existsb_eqb_In (k : K) (s : list K) :
  existsb (eqb k) s = true <-> In k s.
Proof.
  rewrite existsb_exists. split.
  - intros (x & Hx & E). apply eqb_eq in E. now subst.
  - intros H. exists k. split; [assumption | now apply eqb_eq].
Qed.

Lemma existsb_eqb_notin (k : K) (s : list K) :
  existsb (eqb k) s = false <-> ~ In k s.
Proof.
  rewrite <- existsb_eqb_In. destruct (existsb (eqb k) s); split; congruence.
Qed.

Lemma drop_duplicates_from_In (seen : list K) (df : list A) (r : A) :
  In r (drop_duplicates_from eqb key seen df) -> In r df.
Proof.
  revert seen. induction df as [|x df IH]; intros seen; simpl; [tauto|].
  destruct (existsb (eqb (key x)) seen).
  - intros H. right. eauto.
  - intros [H|H]; [now left | right; eauto].
Qed.

Lemma drop_duplicates_from_fresh (seen : list K) (df : list A) (r : A) :
  In r (drop_duplicates_from eqb key seen df) -> ~ In (key r) seen.
Proof.
  revert seen. induction df as [|x df IH]; intros seen; simpl; [tauto|].
  destruct (existsb (eqb (key x)) seen) eqn:E.
  - apply IH.
  - intros [H|H].
    + subst. now apply existsb_eqb_notin.
    + intros Hs. apply (IH _ H). now right.
Qed.

Lemma drop_duplicates_from_NoDup (seen : list K) (df : list A) :
  NoDup (map key (drop_duplicates_from eqb key seen df)).
Proof.
  revert seen. induction df as [|x df IH]; intros seen; simpl.
  - constructor.
  - destruct (existsb (eqb (key x)) seen); [apply IH|].
    simpl. constructor; [|apply IH].
    intros H. apply in_map_iff in H. destruct H as (r & E & Hr).
    apply drop_duplicates_from_fresh in Hr. apply Hr. now left.
Qed.

Lemma drop_duplicates_from_keys (seen : list K) (df : list A) (r : A) :
  In r df ->
  In (key r) seen \/ In (key r) (map key (drop_duplicates_from eqb key seen df)).
Proof.
  revert seen. induction df as [|x df IH]; intros seen; simpl; [tauto|].
  intros [H|H].
  - subst x. destruct (existsb (eqb (key r)) seen) eqn:E.
    + left. now apply existsb_eqb_In.
    + right. now left.
  - destruct (existsb (eqb (key x)) seen) eqn:E.
    + now apply IH.
    + destruct (IH (key x :: seen) H) as [[H1|H1]|H1].
      * right. left. assumption.
      * now left.
      * right. now right.
Qed.

(** A frame without duplicate keys is left as it is. *)
Lemma drop_duplicates_from_id (seen : list K) (df : list A) :
  NoDup (map key df) ->
  (forall r, In r df -> ~ In (key r) seen) ->
  drop_duplicates_from eqb key seen df = df.
Proof.
  revert seen. induction df as [|x df IH]; intros seen Hnd Hfresh; simpl.
  - reflexivity.
  - assert (E : existsb (eqb (key x)) seen = false).
    { apply existsb_eqb_notin. apply Hfresh. now left. }
    rewrite E. f_equal. simpl in Hnd. inversion Hnd as [|? ? Hx Hnd']; subst.
    apply IH; [assumption|].
    intros r Hr [H|H].
    + apply Hx. rewrite H. now apply in_map.
    + apply (Hfresh r); [now right | assumption].
Qed.

Lemma drop_duplicates_idempotent (df : list A) :
  drop_duplicates eqb key (drop_duplicates eqb key df)
  = drop_duplicates eqb key df.
Proof.
  unfold drop_duplicates. apply drop_duplicates_from_id.
  - apply drop_duplicates_from_NoDup.
  - intros r _ H. exact H.
Qed.

Lemma drop_duplicates_from_length (seen : list K) (df : list A) :
  (length (drop_duplicates_from eqb key seen df) <= length df)%nat.
Proof.
  revert seen. induction df as [|x df IH]; intros seen; simpl; [lia|].
  destruct (existsb (eqb (key x)) seen).
  - specialize (IH seen). lia.
  - specialize (IH (key x :: seen)). simpl. lia.
Qed.

(** Keeping first occurrences, read along the frame: the last row is kept
    exactly when no earlier row (nor [seen]) carries its key. *)
Lemma drop_duplicates_from_snoc (seen : list K) (df : list A) (r : A) :
  drop_duplicates_from eqb key seen (df ++ [r])
  = drop_duplicates_from eqb key seen df
    ++ (if existsb (eqb (key r)) (seen ++ map key df) then [] else [r]).
Proof.
  revert seen. induction df as [|x df IH]; intros seen; simpl.
  - rewrite app_nil_r. now destruct (existsb (eqb (key r)) seen).
  - destruct (existsb (eqb (key x)) seen) eqn:E.
    + rewrite IH. f_equal.
      rewrite !existsb_app. simpl.
      destruct (eqb (key r) (key x)) eqn:E2; [|reflexivity].
      apply eqb_eq in E2. rewrite E2, E. simpl. reflexivity.
    + rewrite IH. simpl. f_equal. f_equal.
      rewrite !existsb_app. simpl.
      destruct (eqb (key r) (key x)), (existsb (eqb (key r)) seen);
        reflexivity.
Qed.

End FrameFacts.

Section UniqueSorted.

Context {K : Type}.
Variable eqb : K -> K -> bool.
Variable ltb : K -> K -> bool.
Hypothesis eqb_eq : forall a b, eqb a b = true <-> a = b.

Lemma insert_sorted_Permutation (k : K) (l : list K) :
  Permutation (insert_sorted ltb k l) (k :: l).
Proof.
  induction l as [|x l IH]; simpl; [reflexivity|].
  destruct (ltb x k); [|reflexivity].
  rewrite IH. apply perm_swap.
Qed.

Lemma sort_keys_Permutation (l : list K) : Permutation (sort_keys ltb l) l.
Proof.
  induction l as [|x l IH]; simpl; [reflexivity|].
  rewrite insert_sorted_Permutation. now constructor.
Qed.

Lemma unique_sorted_NoDup (l : list K) : NoDup (unique_sorted eqb ltb l).
Proof.
  unfold unique_sorted.
  eapply Permutation_NoDup; [symmetry; apply sort_keys_Permutation|].
  unfold drop_duplicates.
  rewrite <- (map_id (drop_duplicates_from _ _ _ _)).
  exact (drop_duplicates_from_NoDup eqb (fun k => k) eqb_eq [] l).
Qed.

Lemma unique_sorted_In (l : list K) (k : K) :
  In k (unique_sorted eqb ltb l) <-> In k l.
Proof.
  unfold unique_sorted, drop_duplicates. split.
  - intros H.
    apply (Permutation_in _ (sort_keys_Permutation _)) in H.
    now apply drop_duplicates_from_In in H.
  - intros H.
    apply (Permutation_in _ (Permutation_sym (sort_keys_Permutation _))).
    destruct (drop_duplicates_from_keys eqb (fun k => k) eqb_eq [] l k H)
      as [[]|H'].
    now rewrite map_id in H'.
Qed.

End UniqueSorted.

Section GroupSums.

Context {K A : Type}.
Variable eqb : K -> K -> bool.
Variable ltb : K -> K -> bool.
Variable key : A -> K.
Hypothesis eqb_eq : forall a b, eqb a b = true <-> a = b.
Variable f : A -> Z.

Lemma total_filter_orb (p q : A -> bool) (df : list A) :
  (forall r, p r = true -> q r = false) ->
  total (map f (filter (fun r => p r || q r) df))
  = total (map f (filter p df)) + total (map f (filter q df)).
Proof.
  intros Hpq. induction df as [|r df IH]; simpl; [reflexivity|].
  destruct (p r) eqn:Ep; simpl.
  - rewrite (Hpq r Ep). simpl. rewrite IH. ring.
  - destruct (q r); simpl; rewrite IH; ring.
Qed.

Lemma total_by_keys (ks : list K) (df : list A) :
  NoDup ks ->
  total (map (fun k => total (map f (filter (fun r => eqb (key r) k) df))) ks)
  = total (map f (filter (fun r => existsb (eqb (key r)) ks) df)).
Proof.
  induction 1 as [|k ks Hk Hnd IH]; simpl.
  - induction df as [|r df IHdf]; simpl; auto.
  - rewrite IH. symmetry. apply total_filter_orb.
    intros r E. apply eqb_eq in E. subst k.
    now apply existsb_eqb_notin.
Qed.

Lemma filter_all (p : A -> bool) (df : list A) :
  (forall r, In r df -> p r = true) -> filter p df = df.
Proof.
  induction df as [|r df IH]; simpl; intros H; [reflexivity|].
  rewrite (H r) by now left. f_equal. apply IH. intros; apply H. now right.
Qed.

(** Summing per group and then over the groups gives the sum over the
    frame. *)
Lemma total_groupby (df : list A) :
  total (map (fun g => total (map f (snd g))) (groupby eqb ltb key df))
  = total (map f df).
Proof.
  unfold groupby. rewrite map_map. simpl.
  rewrite total_by_keys by (now apply unique_sorted_NoDup).
  f_equal. f_equal. apply filter_all.
  intros r Hr. apply existsb_eqb_In; [assumption|].
  apply unique_sorted_In; [assumption|]. now apply in_map.
Qed.

Lemma sum64_groupby (df : list A) :
  sum64 (map (fun g => sum64 (map f (snd g))) (groupby eqb ltb key df))
  = sum64 (map f df).
Proof.
  rewrite !sum64_total.
  rewrite (map_ext _ (fun g => wrap64 (total (map f (snd g)))))
    by (intros; apply sum64_total).
  rewrite (wrap64_total_map_wrap (fun g => total (map f (snd g)))).
  now rewrite total_groupby.
Qed.

(** Every group of a [groupby] has a key of the frame and is not empty. *)
Lemma groupby_group (df : list A) (g : K * list A) :
  In g (groupby eqb ltb key df) ->
  snd g = filter (fun r => eqb (key r) (fst g)) df
  /\ In (fst g) (map key df) /\ snd g <> [].
Proof.
  unfold groupby. intros H. apply in_map_iff in H.
  destruct H as (k & <- & Hk). simpl.
  apply unique_sorted_In in Hk; [|assumption].
  repeat split; [assumption|].
  apply in_map_iff in Hk. destruct Hk as (r & <- & Hr).
  intros E. assert (Hin : In r (filter (fun r0 => eqb (key r0) (key r)) df)).
  { apply filter_In. split; [assumption | now apply eqb_eq]. }
  rewrite E in Hin. destruct Hin.
Qed.


End GroupSums.

(** ** Keys *)

Lemma Date_eqb_eq (a b : Date.t) : Date.eqb a b = true <-> a = b.
Proof.
  destruct a as [y m d], b as [y' m' d']. unfold Date.eqb. simpl.
  rewrite !andb_true_iff, !Z.eqb_eq. split.
  - intros [[-> ->] ->]. reflexivity.
  - intros E. injection E. auto.
Qed.

Lemma year_week_eqb_eq (a b : Z * Z) : year_week_eqb a b = true <-> a = b.
Proof.
  destruct a as [y w], b as [y' w']. unfold year_week_eqb. simpl.
  rewrite andb_true_iff, !Z.eqb_eq. split.
  - intros [-> ->]. reflexivity.
  - intros E. injection E. auto.
Qed.

Lemma date_hour_eqb_eq (a b : Date.t * Z) : date_hour_eqb a b = true <-> a = b.
Proof.
  destruct a as [d h], b as [d' h']. unfold date_hour_eqb. simpl.
  rewrite andb_true_iff, Date_eqb_eq, Z.eqb_eq. split.
  - intros [-> ->]. reflexivity.
  - intros E. injection E. auto.
Qed.

(** ** Results *)

Lemma traverse_Ok {A B : Type} (f : A -> result B) (l : list A) :
  (forall a, In a l -> exists b, f a = Ok b) ->
  exists bs, traverse f l = Ok bs.
Proof.
  induction l as [|a l IH]; intros H; simpl.
  - now exists [].
  - destruct (H a (or_introl eq_refl)) as (b & ->).
    destruct IH as (bs & ->); [intros; apply H; now right|].
    simpl. now exists (b :: bs).
Qed.

Lemma traverse_Forall2 {A B : Type} (f : A -> result B) (l : list A)
  (bs : list B) :
  traverse f l = Ok bs -> Forall2 (fun a b => f a = Ok b) l bs.
Proof.
  revert bs. induction l as [|a l IH]; intros bs; simpl.
  - intros E. injection E as <-. constructor.
  - destruct (f a) as [b|e] eqn:Ea; simpl; [|discriminate].
    destruct (traverse f l) as [bs'|e]; simpl; [|discriminate].
    intros E. injection E as <-. constructor; auto.
Qed.

Lemma Forall2_map_eq {A B C : Type} (R : A -> B -> Prop) (u : A -> C)
  (v : B -> C) (l : list A) (bs : list B) :
  Forall2 R l bs -> (forall a b, R a b -> v b = u a) -> map v bs = map u l.
Proof.
  induction 1 as [|a b l bs Hab _ IH]; intros H; simpl; [reflexivity|].
  rewrite (H a b Hab), IH; auto.
Qed.

Lemma Forall2_In_r {A B : Type} (R : A -> B -> Prop) (l : list A)
  (bs : list B) (b : B) :
  Forall2 R l bs -> In b bs -> exists a, In a l /\ R a b.
Proof.
  induction 1 as [|a b' l bs Hab _ IH]; simpl; [tauto|].
  intros [<-|Hb].
  - exists a. split; [now left | assumption].
  - destruct (IH Hb) as (a' & Ha' & HR). exists a'. split; [now right | assumption].
Qed.


(** ** Sorting integer keys *)

Lemma insert_sorted_Z_sorted (k : Z) (l : list Z) :
  StronglySorted Z.le l -> StronglySorted Z.le (insert_sorted Z.ltb k l).
Proof.
  induction 1 as [|x l Hs IH Hx]; simpl.
  - repeat constructor.
  - destruct (Z.ltb_spec x k) as [Hlt|Hge].
    + constructor; [assumption|].
      eapply Permutation_Forall;
        [symmetry; apply insert_sorted_Permutation|].
      constructor; [lia | assumption].
    + constructor; [now constructor|].
      constructor; [assumption|].
      eapply Forall_impl; [|exact Hx]. intros; simpl in *; lia.
Qed.

Lemma sort_keys_Z_sorted (l : list Z) :
  StronglySorted Z.le (sort_keys Z.ltb l).
Proof.
  induction l as [|x l IH]; simpl;
    [constructor | now apply insert_sorted_Z_sorted].
Qed.

Lemma sorted_head_least (m : Z) (l : list Z) (x : Z) :
  StronglySorted Z.le (m :: l) -> In x (m :: l) -> m <= x.
Proof.
  intros Hs [->|Hx]; [lia|].
  apply StronglySorted_inv in Hs. destruct Hs as [_ Hall].
  rewrite Forall_forall in Hall. now apply Hall.
Qed.


Lemma unique_sorted_Z_sorted (l : list Z) :
  StronglySorted Z.le (unique_sorted Z.eqb Z.ltb l).
Proof. apply sort_keys_Z_sorted. Qed.

(** ** The mode of a column *)

Lemma count_cons (v x : Z) (l : list Z) :
  count v (x :: l) = ((if Z.eqb v x then 1 else 0) + count v l)%nat.
Proof. unfold count. simpl. now destruct (v =? x). Qed.


Lemma count_pos (v : Z) (l : list Z) : In v l -> (1 <= count v l)%nat.
Proof.
  induction l as [|x l IH]; simpl; [tauto|]. rewrite count_cons.
  intros [->|H]; [rewrite Z.eqb_refl; lia | specialize (IH H); lia].
Qed.



Lemma fold_max_attained (L l : list Z) :
  l <> [] ->
  exists v, In v l
            /\ count v L = fold_right (fun v m => Nat.max (count v L) m) 0%nat l.
Proof.
  induction l as [|x l IH]; [congruence|]. intros _.
  destruct l as [|y l].
  - exists x. simpl. split; [now left | lia].
  - destruct IH as (v & Hv & E); [congruence|].
    remember (y :: l) as l'. simpl.
    destruct (Nat.max_spec (count x L)
                (fold_right (fun v m => Nat.max (count v L) m) 0%nat l'))
      as [[_ ->]|[_ ->]].
    + exists v. split; [now right | assumption].
    + exists x. split; [now left | reflexivity].
Qed.


Lemma max_count_attained (l : list Z) :
  l <> [] -> exists v, In v l /\ count v l = max_count l.
Proof. apply fold_max_attained. Qed.


Lemma mode_In (l : list Z) (v : Z) :
  In v (mode l) <-> In v l /\ count v l = max_count l.
Proof.
  unfold mode. rewrite (unique_sorted_In Z.eqb Z.ltb Z.eqb_eq).
  rewrite filter_In, Nat.eqb_eq. tauto.
Qed.



(** On a non-empty column the lambda returns the least value among those
    of highest frequency. *)
Lemma most_common_spec (l : list Z) :
  l <> [] ->
  exists m, most_common l = Some m
            /\ In m l /\ count m l = max_count l
            /\ forall c, In c l -> count c l = max_count l -> m <= c.
Proof.
  intros Hne. unfold most_common.
  destruct (max_count_attained l Hne) as (v & Hv & Hc).
  assert (Hin : In v (mode l)) by (apply mode_In; tauto).
  destruct (mode l) as [|m ms] eqn:E; [destruct Hin|].
  exists m. split; [reflexivity|].
  assert (Hm : In m (mode l)) by (rewrite E; now left).
  apply mode_In in Hm. destruct Hm as [Hm1 Hm2].
  repeat split; try assumption.
  intros c Hc1 Hc2.
  apply (sorted_head_least m ms).
  - rewrite <- E. apply unique_sorted_Z_sorted.
  - rewrite <- E. apply mode_In. tauto.
Qed.

(** ** Aggregations *)


Lemma sum64_add_columns {A : Type} (f g h : A -> Z) (l : list A) :
  (forall a, In a l -> add64 (f a) (g a) = h a) ->
  add64 (sum64 (map f l)) (sum64 (map g l)) = sum64 (map h l).
Proof.
  intros H. rewrite !sum64_total. unfold add64.
  rewrite wrap64_idem_add_l, wrap64_idem_add_r, <- total_map_add.
  rewrite <- (wrap64_total_map_wrap (fun a => f a + g a)).
  f_equal. f_equal. apply map_ext_in. exact H.
Qed.

Section AggregationFacts.

Variable mean : list float -> float.

Lemma daily_of_Ok (g : Date.t * list EnrichedRow) :
  snd g <> [] -> exists d, daily_of mean g = Ok d.
Proof.
  destruct g as [k x]. simpl. intros Hne.
  destruct (most_common_spec (map (fun e => weathersit (row_of e)) x))
    as (m & E & _).
  - destruct x; [congruence | discriminate].
  - rewrite E. eauto.
Qed.

Lemma daily_of_fields (g : Date.t * list EnrichedRow) (d : Daily.t) :
  daily_of mean g = Ok d ->
  Daily.date d = fst g
  /\ Daily.total_rentals d = sum64 (map (fun e => cnt (row_of e)) (snd g))
  /\ Daily.casual_users d = sum64 (map (fun e => casual (row_of e)) (snd g))
  /\ Daily.registered_users d
     = sum64 (map (fun e => registered (row_of e)) (snd g))
  /\ most_common (map (fun e => weathersit (row_of e)) (snd g))
     = Some (Daily.most_common_weather d).
Proof.
  destruct g as [k x]. simpl.
  destruct (most_common (map (fun e => weathersit (row_of e)) x)) as [w|];
    [|discriminate].
  intros E. injection E as <-. simpl. auto.
Qed.

(** The aggregation task never raises: no group of a [groupby] is empty. *)
Lemma transform_aggregations_Ok (df : list EnrichedRow) :
  exists daily,
    traverse (daily_of mean)
      (groupby Date.eqb Date.ltb (fun e => dteday (row_of e)) df) = Ok daily
    /\ transform_aggregations mean df
       = Ok {| final_data := map add_year_week df;
               daily_agg := daily;
               weekly_agg :=
                 map (weekly_of mean)
                   (groupby year_week_eqb year_week_ltb year_week
                      (map add_year_week df));
               daily_records := length daily;
               weekly_records :=
                 length (map (weekly_of mean)
                           (groupby year_week_eqb year_week_ltb year_week
                              (map add_year_week df))) |}.
Proof.
  destruct (traverse_Ok (daily_of mean)
              (groupby Date.eqb Date.ltb (fun e => dteday (row_of e)) df))
    as (daily & E).
  - intros g Hg. apply daily_of_Ok.
    now apply (groupby_group _ _ _ Date_eqb_eq) in Hg.
  - exists daily. split; [assumption|].
    unfold transform_aggregations. rewrite E. reflexivity.
Qed.



End AggregationFacts.


(** A row whose counts add up exactly, [cnt] being an int64 value,
    satisfies the invariant as the int64 columns evaluate it. *)
Lemma counts_consistent_of_exact (r : Row) :
  - 2 ^ 63 <= cnt r < 2 ^ 63 ->
  casual r + registered r = cnt r ->
  counts_consistent r.
Proof.
  intros Hrange E. unfold counts_consistent, add64, wrap64. rewrite E.
  rewrite Z.mod_small; lia.
Qed.

Lemma clean_frame_rows (df : list Row) (x : CleanRow) :
  In x (cleaned_data (clean_frame (fun r => r) df)) ->
  In (base x) df /\ x = denormalize (base x).
Proof.
  unfold clean_frame. simpl. intros H. apply in_map_iff in H.
  destruct H as (r & <- & Hr).
  apply drop_duplicates_from_In in Hr.
  destruct r; simpl. split; [assumption | reflexivity].
Qed.

(** C4. When every input row satisfies [casual + registered == cnt], the
    Validator hands the table on as it is, and the Cleaner, the Enricher
    and the Aggregator all return; every cleaned row is an input row with
    its counts as they were, the Enricher and the frame pushed by the
    Aggregator keep the rows they receive, and every row of the daily and
    of the weekly aggregate satisfies
    [casual_users + registered_users == total_rentals] ([+] and [==] being
    those of int64 columns). *)
Theorem counts_invariant_preserved (mean : list float -> float)
  (df : list Row) :
  Forall counts_consistent df ->
  (forall columns v,
      extract_and_validate columns df = Ok v -> validated_data v = df)
  /\ exists c f a,
    clean_enrich_aggregate mean df = Ok (c, f, a)
    /\ Forall (fun x => In (base x) df /\ counts_consistent (base x))
         (cleaned_data c)
    /\ map clean (featured_data f) = cleaned_data c
    /\ Forall (fun e => counts_consistent (row_of e)) (featured_data f)
    /\ map enriched (final_data a) = featured_data f
    /\ Forall (fun d => add64 (Daily.casual_users d) (Daily.registered_users d)
                        = Daily.total_rentals d) (daily_agg a)
    /\ Forall (fun w => add64 (Weekly.casual_users w)
                          (Weekly.registered_users w)
                        = Weekly.total_rentals w) (weekly_agg a).
Proof.
  intros Hdf. rewrite Forall_forall in Hdf.
  split.
  { intros columns v. unfold extract_and_validate.
    destruct (list_eq_dec string_dec columns expected_columns); [|discriminate].
    destruct (negb _); [discriminate|].
    intros E. injection E as <-. reflexivity. }
  set (c := clean_frame (fun r => r) df).
  set (fd := map enrich (cleaned_data c)).
  assert (Hc : forall x, In x (cleaned_data c) ->
                         In (base x) df /\ counts_consistent (base x)).
  { intros x Hx. apply clean_frame_rows in Hx. destruct Hx as [Hx _].
    split; [assumption | now apply Hdf]. }
  assert (Hf : forall e, In e fd -> counts_consistent (row_of e)).
  { intros e He. apply in_map_iff in He. destruct He as (x & <- & Hx).
    apply (Hc x Hx). }
  destruct (transform_aggregations_Ok mean fd) as (daily & Ed & Ea).
  exists c.
  exists {| featured_data := fd; featured_records := length fd;
            total_columns := 27 |}.
  eexists. split.
  { change (clean_enrich_aggregate mean df)
      with (a <- transform_aggregations mean fd ;;
            Ok (c, {| featured_data := fd; featured_records := length fd;
                      total_columns := 27 |}, a)).
    rewrite Ea. reflexivity. }
  simpl. repeat split.
  - apply Forall_forall. exact Hc.
  - unfold fd. rewrite map_map. simpl. apply map_id.
  - apply Forall_forall. exact Hf.
  - rewrite map_map. simpl. apply map_id.
  - apply Forall_forall. intros d Hd.
    apply traverse_Forall2 in Ed.
    destruct (Forall2_In_r _ _ _ _ Ed Hd) as (g & Hg & Hgd).
    apply daily_of_fields in Hgd.
    destruct Hgd as (_ & -> & -> & -> & _).
    apply sum64_add_columns. intros e He. apply Hf.
    apply (groupby_group _ _ _ Date_eqb_eq) in Hg. destruct Hg as (Hs & _).
    rewrite Hs in He. now apply filter_In in He.
  - apply Forall_forall. intros w Hw.
    apply in_map_iff in Hw. destruct Hw as ([k x] & <- & Hg). simpl.
    rewrite !map_map. apply sum64_add_columns. intros r Hr.
    apply (groupby_group _ _ _ year_week_eqb_eq) in Hg.
    destruct Hg as (Hs & _). simpl in Hs. rewrite Hs in Hr.
    apply filter_In in Hr. destruct Hr as [Hr _].
    apply in_map_iff in Hr. destruct Hr as (e & <- & He). simpl.
    now apply Hf.
Qed.



(** ** Validation of the date range *)

Ltac date_order :=
  unfold Date.ltb in *; simpl in *;
  rewrite ?orb_true_iff, ?andb_true_iff, ?orb_false_iff, ?andb_false_iff,
    ?Z.ltb_lt, ?Z.eqb_eq, ?Z.ltb_ge, ?Z.eqb_neq in *;
  lia.

Lemma Date_ltb_trans (a b c : Date.t) :
  Date.ltb a b = true -> Date.ltb b c = true -> Date.ltb a c = true.
Proof. destruct a, b, c. intros H1 H2. date_order. Qed.

Lemma Date_ltb_le_trans (a b c : Date.t) :
  Date.ltb a b = true -> Date.ltb c b = false -> Date.ltb a c = true.
Proof. destruct a, b, c. intros H1 H2. date_order. Qed.

Lemma Date_le_ltb_trans (a b c : Date.t) :
  Date.ltb b a = false -> Date.ltb b c = true -> Date.ltb a c = true.
Proof. destruct a, b, c. intros H1 H2. date_order. Qed.

Lemma Date_ltb_irrefl (a : Date.t) : Date.ltb a a = false.
Proof. destruct a. date_order. Qed.

Lemma Date_not_ltb_year (a b : Date.t) :
  Date.ltb a b = false -> Date.year b <= Date.year a.
Proof. destruct a, b. intros H. date_order. Qed.

Lemma fold_min_least (ds : list Date.t) (d : Date.t) :
  let m := fold_left (fun m x => if Date.ltb x m then x else m) ds d in
  In m (d :: ds) /\ forall x, In x (d :: ds) -> Date.ltb x m = false.
Proof.
  revert d. induction ds as [|x ds IH]; intros d; simpl.
  - split; [now left|]. intros y [E|[]]. subst y. apply Date_ltb_irrefl.
  - specialize (IH (if Date.ltb x d then x else d)). simpl in IH.
    destruct IH as [Hin Hle]. split.
    + destruct (Date.ltb x d); destruct Hin as [<-|H]; auto.
    + intros y Hy.
      destruct (Date.ltb y _) eqn:Hlt; [|reflexivity].
      destruct (Date.ltb x d) eqn:Hxd.
      * destruct Hy as [E|[E|Hy]]; try subst y.
        -- pose proof (Hle x (or_introl eq_refl)) as Hx.
           pose proof (Date_ltb_le_trans _ _ _ Hlt Hx) as Hdx.
           pose proof (Date_ltb_trans _ _ _ Hdx Hxd) as Hdd.
           rewrite Date_ltb_irrefl in Hdd. discriminate.
        -- rewrite (Hle x (or_introl eq_refl)) in Hlt. discriminate.
        -- rewrite (Hle y (or_intror Hy)) in Hlt. discriminate.
      * destruct Hy as [E|[E|Hy]]; try subst y.
        -- rewrite (Hle d (or_introl eq_refl)) in Hlt. discriminate.
        -- pose proof (Hle d (or_introl eq_refl)) as Hd.
           pose proof (Date_ltb_le_trans _ _ _ Hlt Hd) as Hyd.
           congruence.
        -- rewrite (Hle y (or_intror Hy)) in Hlt. discriminate.
Qed.

Lemma fold_max_greatest (ds : list Date.t) (d : Date.t) :
  let m := fold_left (fun m x => if Date.ltb m x then x else m) ds d in
  In m (d :: ds) /\ forall x, In x (d :: ds) -> Date.ltb m x = false.
Proof.
  revert d. induction ds as [|x ds IH]; intros d; simpl.
  - split; [now left|]. intros y [E|[]]. subst y. apply Date_ltb_irrefl.
  - specialize (IH (if Date.ltb d x then x else d)). simpl in IH.
    destruct IH as [Hin Hle]. split.
    + destruct (Date.ltb d x); destruct Hin as [<-|H]; auto.
    + intros y Hy.
      destruct (Date.ltb _ y) eqn:Hlt; [|reflexivity].
      destruct (Date.ltb d x) eqn:Hdx.
      * destruct Hy as [E|[E|Hy]]; try subst y.
        -- pose proof (Hle x (or_introl eq_refl)) as Hx.
           pose proof (Date_le_ltb_trans _ _ _ Hx Hlt) as Hxy.
           pose proof (Date_ltb_trans _ _ _ Hdx Hxy) as Hdd.
           rewrite Date_ltb_irrefl in Hdd. discriminate.
        -- rewrite (Hle x (or_introl eq_refl)) in Hlt. discriminate.
        -- rewrite (Hle y (or_intror Hy)) in Hlt. discriminate.
      * destruct Hy as [E|[E|Hy]]; try subst y.
        -- rewrite (Hle d (or_introl eq_refl)) in Hlt. discriminate.
        -- pose proof (Hle d (or_introl eq_refl)) as Hd.
           pose proof (Date_le_ltb_trans _ _ _ Hd Hlt) as Hdy.
           congruence.
        -- rewrite (Hle y (or_intror Hy)) in Hlt. discriminate.
Qed.

Lemma min_of_least (ds : list Date.t) :
  ds <> [] ->
  exists a, Date.min_of ds = Some a /\ In a ds
            /\ forall x, In x ds -> Date.ltb x a = false.
Proof.
  destruct ds as [|d ds]; [congruence|]. intros _.
  eexists. split; [reflexivity|]. apply fold_min_least.
Qed.

Lemma max_of_greatest (ds : list Date.t) :
  ds <> [] ->
  exists b, Date.max_of ds = Some b /\ In b ds
            /\ forall x, In x ds -> Date.ltb b x = false.
Proof.
  destruct ds as [|d ds]; [congruence|]. intros _.
  eexists. split; [reflexivity|]. apply fold_max_greatest.
Qed.

(** C5. On a table with at least one row whose header is the expected one,
    the Validator returns exactly when every date is of year 2011 or 2012,
    and otherwise raises the date-range error carrying the least and the
    greatest date of the table; the test on the year of the least date and
    on the year of the greatest date decides the condition for every row. *)
Theorem validator_date_range (df : list Row) :
  df <> [] ->
  exists a b,
    Date.min_of (map dteday df) = Some a
    /\ Date.max_of (map dteday df) = Some b
    /\ In a (map dteday df) /\ In b (map dteday df)
    /\ (forall r, In r df ->
          Date.ltb (dteday r) a = false /\ Date.ltb b (dteday r) = false)
    /\ (2011 <= Date.year a /\ Date.year b <= 2012 <-> years_supported df)
    /\ ((exists v, extract_and_validate expected_columns df = Ok v)
        <-> years_supported df)
    /\ (~ years_supported df ->
        extract_and_validate expected_columns df
        = Raise (ValueError_date_range (Some a) (Some b))).
Proof.
  intros Hne.
  assert (Hne' : map dteday df <> []) by (destruct df; [congruence | discriminate]).
  destruct (min_of_least _ Hne') as (a & Ea & Ha & Hmin).
  destruct (max_of_greatest _ Hne') as (b & Eb & Hb & Hmax).
  assert (Hbounds : forall r, In r df ->
            Date.ltb (dteday r) a = false /\ Date.ltb b (dteday r) = false).
  { intros r Hr. split; [apply Hmin | apply Hmax]; now apply in_map. }
  assert (Hiff : 2011 <= Date.year a /\ Date.year b <= 2012
                 <-> years_supported df).
  { split.
    - intros [H1 H2] r Hr. destruct (Hbounds r Hr) as [Hl Hu].
      apply Date_not_ltb_year in Hl, Hu. lia.
    - intros H. apply in_map_iff in Ha, Hb.
      destruct Ha as (ra & <- & Hra). destruct Hb as (rb & <- & Hrb).
      pose proof (H ra Hra). pose proof (H rb Hrb). lia. }
  assert (Hok : date_range_ok (Some a) (Some b) = true <-> years_supported df).
  { rewrite <- Hiff. unfold date_range_ok.
    rewrite andb_true_iff, !Z.leb_le. tauto. }
  exists a, b. repeat split; try assumption; try apply Hbounds; try tauto.
  - intros (v & E). apply Hok. unfold extract_and_validate in E.
    destruct (list_eq_dec string_dec expected_columns expected_columns);
      [|congruence].
    rewrite Ea, Eb in E.
    destruct (date_range_ok (Some a) (Some b)); [reflexivity | discriminate].
  - intros H. apply Hok in H. unfold extract_and_validate.
    destruct (list_eq_dec string_dec expected_columns expected_columns);
      [|congruence].
    rewrite Ea, Eb, H. simpl. eauto.
  - intros H. unfold extract_and_validate.
    destruct (list_eq_dec string_dec expected_columns expected_columns);
      [|congruence].
    rewrite Ea, Eb.
    destruct (date_range_ok (Some a) (Some b)) eqn:E; [|reflexivity].
    exfalso. apply H. now apply Hok.
Qed.




(** ** Labels of the code columns *)

Ltac label_cases :=
  repeat match goal with
         | |- context [Z.eqb ?a ?b] => destruct (Z.eqb_spec a b)
         end;
  (split; intros ?; [first [discriminate | lia] | first [reflexivity | exfalso; lia]]).

Lemma season_label_missing (k : Z) :
  dict_get season_map k = None <-> ~ 1 <= k <= 4.
Proof. unfold season_map. simpl. label_cases. Qed.

Lemma weather_label_missing (k : Z) :
  dict_get weather_map k = None <-> ~ 1 <= k <= 4.
Proof. unfold weather_map. simpl. label_cases. Qed.

Lemma day_label_missing (k : Z) :
  dict_get day_map k = None <-> ~ 0 <= k <= 6.
Proof. unfold day_map. simpl. label_cases. Qed.

Lemma month_label_missing (k : Z) :
  dict_get month_map k = None <-> ~ 1 <= k <= 12.
Proof. unfold month_map. simpl. label_cases. Qed.

(** C3, refuted as stated: on a table whose only row has season code 5 the
    Enricher returns, raising nothing, and the row's [season_name] is
    missing. *)
Lemma unmapped_code_does_not_raise :
  unmapped_code season5_row
  /\ (forall e, transform_feature_engineering [season5_row] <> Raise e)
  /\ exists f, transform_feature_engineering [season5_row] = Ok f
               /\ map season_name (featured_data f) = [None].
Proof.
  split; [|split].
  - left. unfold season_in_domain. simpl. lia.
  - intros e. discriminate.
  - eexists. split; reflexivity.
Qed.

(** C3, amended: the Enricher returns on every cleaned table, with one
    output row per input row in the same order; each of the four labels of
    a row is missing exactly when the row's code lies outside the label's
    domain (season 1-4, weather 1-4, weekday 0-6, month 1-12). *)
Theorem unmapped_code_gives_missing_label (df : list CleanRow) :
  exists f,
    transform_feature_engineering df = Ok f
    /\ map clean (featured_data f) = df
    /\ Forall (fun e =>
                 (season_name e = None <-> ~ season_in_domain (clean e))
                 /\ (weather_desc e = None <-> ~ weather_in_domain (clean e))
                 /\ (day_name e = None <-> ~ weekday_in_domain (clean e))
                 /\ (month_name e = None <-> ~ month_in_domain (clean e)))
         (featured_data f).
Proof.
  eexists. split; [reflexivity|]. simpl. split.
  - rewrite map_map. simpl. apply map_id.
  - apply Forall_forall. intros e He. apply in_map_iff in He.
    destruct He as (c & <- & _). simpl.
    unfold season_in_domain, weather_in_domain, weekday_in_domain,
      month_in_domain.
    repeat split;
      first [apply season_label_missing | apply weather_label_missing
            | apply day_label_missing | apply month_label_missing].
Qed.

(** ** The Cleaner as a frame transformation *)

Lemma coerce_types_id (r : Row) : coerce_types r = r.
Proof. destruct r. reflexivity. Qed.

Lemma base_denormalize_coerce (l : list Row) :
  map base (map (fun r => denormalize (coerce_types r)) l) = l.
Proof.
  rewrite map_map. rewrite <- (map_id l) at 2.
  apply map_ext. intros r. simpl. apply coerce_types_id.
Qed.

Lemma drop_duplicates_from_Subseq {K A : Type} (eqb : K -> K -> bool)
  (key : A -> K) (seen : list K) (df : list A) :
  Subseq (drop_duplicates_from eqb key seen df) df.
Proof.
  revert seen. induction df as [|r df IH]; intros seen; simpl.
  - constructor.
  - destruct (existsb (eqb (key r)) seen); constructor; apply IH.
Qed.

(** A row whose key is on no earlier row is retained. *)
Lemma drop_duplicates_from_first {K A : Type} (eqb : K -> K -> bool)
  (key : A -> K) (eqb_eq : forall a b, eqb a b = true <-> a = b)
  (seen : list K) (l1 l2 : list A) (r : A) :
  ~ In (key r) seen -> ~ In (key r) (map key l1) ->
  In r (drop_duplicates_from eqb key seen (l1 ++ r :: l2)).
Proof.
  revert seen. induction l1 as [|x l1 IH]; intros seen Hs Hl; simpl.
  - apply (existsb_eqb_notin eqb eqb_eq) in Hs. rewrite Hs. now left.
  - simpl in Hl.
    destruct (existsb (eqb (key x)) seen).
    + apply IH; tauto.
    + right. apply IH; [|tauto].
      intros [H|H]; [apply Hl; now left | contradiction].
Qed.


(** C10. The Cleaner returns on every validated table (whose categorical
    fields are integers). The 17 source columns of its output are the input
    with some rows removed: each retained row has its 17 values unchanged
    and the retained rows keep their relative order; no two retained rows
    share a (dteday, hr) key, and a row whose key appears on no earlier row
    is retained, so only later duplicates are dropped; the rest of the
    output is the four climate columns computed from the row, and
    [duplicates_removed] is the difference of the row counts. *)
Theorem cleaner_frame_effect (df : list Row) :
  exists c,
    transform_clean_and_denormalize df = Ok c
    /\ Subseq (map base (cleaned_data c)) df
    /\ NoDup (map (fun x => date_hour (base x)) (cleaned_data c))
    /\ (forall l1 r l2,
          df = l1 ++ r :: l2 ->
          ~ In (date_hour r) (map date_hour l1) ->
          In r (map base (cleaned_data c)))
    /\ Forall (fun x => x = denormalize (base x)) (cleaned_data c)
    /\ duplicates_removed c
       = Z.of_nat (length df) - Z.of_nat (length (cleaned_data c)).
Proof.
  eexists. split; [reflexivity|]. unfold clean_frame. simpl.
  rewrite base_denormalize_coerce. repeat split.
  - apply drop_duplicates_from_Subseq.
  - rewrite map_map. simpl.
    apply (drop_duplicates_from_NoDup _ _ date_hour_eqb_eq).
  - intros l1 r l2 -> Hfirst.
    apply (drop_duplicates_from_first _ _ date_hour_eqb_eq); [tauto | assumption].
  - apply Forall_forall. intros x Hx. apply in_map_iff in Hx.
    destruct Hx as (r & <- & _). reflexivity.
  - now rewrite length_map.
Qed.

(** ** The weekly key *)

Lemma weekly_key_of_row (e : EnrichedRow) :
  year_week (add_year_week e)
  = (Date.year (dteday (row_of e)), Date.iso_week (dteday (row_of e))).
Proof. reflexivity. Qed.

(** C2, evaluated where it fails: 2012-12-31 belongs to ISO week 1 of ISO
    year 2013, yet the weekly aggregate of a table holding 2012-01-02 and
    2012-12-31 has a single row, keyed (2012, 1), that spans both dates:
    the key pairs the calendar year with the ISO week number. *)
Theorem weekly_key_pairs_calendar_year_with_iso_week :
  Date.isocalendar (Date.mk 2012 12 31) = (2013, 1, 1)
  /\ Date.isocalendar (Date.mk 2012 1 2) = (2012, 1, 1)
  /\ exists out,
       transform_aggregations naive_mean year_end_rows = Ok out
       /\ map (fun w => (Weekly.year w, Weekly.week w, Weekly.total_rentals w,
                         Weekly.week_start w, Weekly.week_end w))
            (weekly_agg out)
          = [(2012, 1, 17, Some (Date.mk 2012 1 2), Some (Date.mk 2012 12 31))].
Proof.
  split; [reflexivity|]. split; [reflexivity|].
  eexists. split; vm_compute; reflexivity.
Qed.

(** ** The theorems on the sample frames *)

Lemma counts_invariant_preserved_witness :
  Forall counts_consistent sample_rows
  /\ (forall columns v,
        extract_and_validate columns sample_rows = Ok v ->
        validated_data v = sample_rows)
  /\ exists c f a,
       clean_enrich_aggregate naive_mean sample_rows = Ok (c, f, a)
       /\ Forall (fun x => In (base x) sample_rows
                           /\ counts_consistent (base x))
            (cleaned_data c)
       /\ map clean (featured_data f) = cleaned_data c
       /\ Forall (fun e => counts_consistent (row_of e)) (featured_data f)
       /\ map enriched (final_data a) = featured_data f
       /\ Forall (fun d => add64 (Daily.casual_users d)
                             (Daily.registered_users d)
                           = Daily.total_rentals d) (daily_agg a)
       /\ Forall (fun w => add64 (Weekly.casual_users w)
                             (Weekly.registered_users w)
                           = Weekly.total_rentals w) (weekly_agg a).
Proof.
  assert (H : Forall counts_consistent sample_rows)
    by (repeat constructor).
  split; [exact H | exact (counts_invariant_preserved naive_mean sample_rows H)].
Defined.

Lemma validator_date_range_witness :
  sample_rows <> []
  /\ exists a b,
       Date.min_of (map dteday sample_rows) = Some a
       /\ Date.max_of (map dteday sample_rows) = Some b
       /\ In a (map dteday sample_rows) /\ In b (map dteday sample_rows)
       /\ (forall r, In r sample_rows ->
             Date.ltb (dteday r) a = false /\ Date.ltb b (dteday r) = false)
       /\ (2011 <= Date.year a /\ Date.year b <= 2012
           <-> years_supported sample_rows)
       /\ ((exists v, extract_and_validate expected_columns sample_rows = Ok v)
           <-> years_supported sample_rows)
       /\ (~ years_supported sample_rows ->
           extract_and_validate expected_columns sample_rows
           = Raise (ValueError_date_range (Some a) (Some b))).
Proof.
  assert (H : sample_rows <> []) by discriminate.
  split; [exact H | exact (validator_date_range sample_rows H)].
Defined.


Example sample_daily_weather :
  exists out,
    transform_aggregations naive_mean sample_enriched = Ok out
    /\ map (fun d => (Daily.date d, Daily.most_common_weather d,
                      Daily.total_rentals d))
         (daily_agg out)
       = [(Date.mk 2012 1 2, 1, 50); (Date.mk 2012 12 31, 2, 15)].
Proof. eexists. split; vm_compute; reflexivity. Qed.

Example sample_cleaned :
  exists c,
    transform_clean_and_denormalize sample_rows = Ok c
    /\ duplicates_removed c = 1
    /\ map (fun x => (hr (base x), weathersit (base x), temp_celsius x))
         (cleaned_data c)
       = [(7, 3, 20.5%float); (8, 1, 10.25%float); (9, 3, 30.75%float);
          (10, 1, 20.5%float); (11, 2, 20.5%float); (8, 2, 10.25%float)].
Proof. eexists. split; [reflexivity|]. split; vm_compute; reflexivity. Qed.

(* ================================================================== *)
(** * Further properties of the tasks *)

(** ** extract_and_validate: outcomes *)

Lemma date_range_ok_years (df : list Row) :
  df <> [] ->
  date_range_ok (Date.min_of (map dteday df)) (Date.max_of (map dteday df))
  = true <-> years_supported df.
Proof.
  intros Hne.
  assert (Hne' : map dteday df <> [])
    by (destruct df; [congruence | discriminate]).
  destruct (min_of_least _ Hne') as (a & -> & Ha & Hmin).
  destruct (max_of_greatest _ Hne') as (b & -> & Hb & Hmax).
  unfold date_range_ok. rewrite andb_true_iff, !Z.leb_le. split.
  - intros [H1 H2] r Hr.
    pose proof (Date_not_ltb_year _ _ (Hmin _ (in_map dteday _ _ Hr))).
    pose proof (Date_not_ltb_year _ _ (Hmax _ (in_map dteday _ _ Hr))).
    lia.
  - intros H. apply in_map_iff in Ha, Hb.
    destruct Ha as (ra & <- & Hra). destruct Hb as (rb & <- & Hrb).
    pose proof (H ra Hra). pose proof (H rb Hrb). lia.
Qed.

Lemma extract_and_validate_Ok_inv (columns : list string) (df : list Row)
  (v : Validated) :
  extract_and_validate columns df = Ok v ->
  columns = expected_columns /\ df <> [] /\ years_supported df
  /\ validated_data v = df
  /\ validated_records v = length df
  /\ date_range v
     = (Date.min_of (map dteday df), Date.max_of (map dteday df)).
Proof.
  unfold extract_and_validate.
  destruct (list_eq_dec string_dec columns expected_columns) as [Hc|Hc];
    [|discriminate].
  destruct df as [|r df]; [discriminate|].
  assert (Hne : r :: df <> []) by discriminate.
  pose proof (date_range_ok_years _ Hne) as Hok.
  destruct (date_range_ok _ _); simpl; [|discriminate].
  intros E. injection E as <-. simpl. repeat split; tauto.
Qed.




(** ** The task chain *)


(** ** transform_clean_and_denormalize: what is removed *)


(** A retained row is the first row of the frame that carries its key. *)
Lemma drop_duplicates_from_first_inv {K A : Type} (eqb : K -> K -> bool)
  (key : A -> K) (eqb_eq : forall a b, eqb a b = true <-> a = b)
  (seen : list K) (df : list A) (r : A) :
  In r (drop_duplicates_from eqb key seen df) ->
  exists l1 l2, df = l1 ++ r :: l2 /\ ~ In (key r) (map key l1).
Proof.
  revert seen. induction df as [|x df IH]; intros seen; simpl; [tauto|].
  destruct (existsb (eqb (key x)) seen) eqn:E.
  - intros H. destruct (IH _ H) as (l1 & l2 & -> & Hl1).
    pose proof (drop_duplicates_from_fresh eqb key eqb_eq _ _ _ H) as Hf.
    exists (x :: l1), l2. split; [reflexivity|]. simpl.
    intros [Hx|Hx]; [|contradiction].
    apply Hf. rewrite <- Hx. now apply (existsb_eqb_In eqb eqb_eq).
  - intros [->|H].
    + exists [], df. split; [reflexivity | simpl; tauto].
    + destruct (IH _ H) as (l1 & l2 & -> & Hl1).
      pose proof (drop_duplicates_from_fresh eqb key eqb_eq _ _ _ H) as Hf.
      exists (x :: l1), l2. split; [reflexivity|]. simpl.
      intros [Hx|Hx]; [|contradiction].
      apply Hf. left. assumption.
Qed.

Lemma find_first {A : Type} (p : A -> bool) (l1 l2 : list A) (r : A) :
  (forall x, In x l1 -> p x = false) -> p r = true ->
  find p (l1 ++ r :: l2) = Some r.
Proof.
  induction l1 as [|x l1 IH]; intros H Hr; simpl.
  - now rewrite Hr.
  - rewrite (H x) by now left. apply IH; [|assumption].
    intros y Hy. apply H. now right.
Qed.

Lemma find_split {A : Type} (p : A -> bool) (l : list A) (r : A) :
  find p l = Some r ->
  exists l1 l2, l = l1 ++ r :: l2 /\ p r = true
                /\ forall x, In x l1 -> p x = false.
Proof.
  induction l as [|x l IH]; simpl; [discriminate|].
  destruct (p x) eqn:E.
  - intros H. injection H as <-. exists [], l. simpl. tauto.
  - intros H. destruct (IH H) as (l1 & l2 & -> & Hr & Hl1).
    exists (x :: l1), l2. repeat split; try assumption.
    intros y [<-|Hy]; auto.
Qed.


(** X5. First reading wins: every cleaned row is the first input row that
    carries its (dteday, hr) key, and for every input row the first input
    row with the same key is in the cleaned table. *)
Theorem cleaner_keeps_first_reading (df : list Row) :
  exists c,
    transform_clean_and_denormalize df = Ok c
    /\ (forall x, In x (cleaned_data c) ->
          find (fun y => date_hour_eqb (date_hour y) (date_hour (base x))) df
          = Some (base x))
    /\ (forall r, In r df ->
          exists x, In x (cleaned_data c)
                    /\ find (fun y => date_hour_eqb (date_hour y) (date_hour r))
                         df
                       = Some (base x)).
Proof.
  eexists. split; [reflexivity|]. unfold clean_frame. simpl. split.
  - intros x Hx. apply in_map_iff in Hx. destruct Hx as (r & <- & Hr).
    simpl. rewrite coerce_types_id.
    apply (drop_duplicates_from_first_inv _ _ date_hour_eqb_eq) in Hr.
    destruct Hr as (l1 & l2 & -> & Hl1).
    apply find_first.
    + intros y Hy.
      destruct (date_hour_eqb (date_hour y) (date_hour r)) eqn:E;
        [|reflexivity].
      apply date_hour_eqb_eq in E. exfalso. apply Hl1.
      rewrite <- E. now apply in_map.
    + now apply date_hour_eqb_eq.
  - intros r Hr.
    destruct (find (fun y => date_hour_eqb (date_hour y) (date_hour r)) df)
      as [y|] eqn:E.
    + destruct (find_split _ _ _ E) as (l1 & l2 & Hdf & Hy & Hl1).
      apply date_hour_eqb_eq in Hy.
      exists (denormalize (coerce_types y)). split.
      * apply (in_map (fun r0 => denormalize (coerce_types r0))).
        rewrite Hdf.
        apply (drop_duplicates_from_first _ _ date_hour_eqb_eq);
          [simpl; tauto|].
        intros Hin. apply in_map_iff in Hin.
        destruct Hin as (z & Ez & Hz).
        specialize (Hl1 z Hz). rewrite Ez, Hy in Hl1.
        assert (date_hour_eqb (date_hour r) (date_hour r) = true)
          by now apply date_hour_eqb_eq.
        congruence.
      * simpl. now rewrite coerce_types_id.
    + exfalso. apply (find_none _ _ E) in Hr.
      assert (date_hour_eqb (date_hour r) (date_hour r) = true)
        by now apply date_hour_eqb_eq.
      congruence.
Qed.

(** ** transform_feature_engineering: labels and flags *)

Lemma dict_get_In {V : Type} (d : list (Z * V)) (k : Z) (v : V) :
  dict_get d k = Some v -> In (k, v) d.
Proof.
  induction d as [|[k' v'] d IH]; simpl; [discriminate|].
  destruct (Z.eqb_spec k k') as [->|_].
  - intros E. injection E as ->. now left.
  - intros E. right. now apply IH.
Qed.

(** A dict whose values are pairwise distinct sends distinct keys to
    distinct values. *)
Lemma dict_get_injective {V : Type} (d : list (Z * V)) (a b : Z) (v : V) :
  NoDup (map snd d) ->
  dict_get d a = Some v -> dict_get d b = Some v -> a = b.
Proof.
  intros Hnd Ha Hb. apply dict_get_In in Ha, Hb.
  induction d as [|[k' v'] d IH]; [destruct Ha|].
  simpl in Hnd. inversion Hnd as [|? ? Hv Hnd']; subst.
  destruct Ha as [Ha|Ha], Hb as [Hb|Hb].
  - congruence.
  - injection Ha as -> ->. exfalso. apply Hv.
    apply in_map_iff. now exists (b, v).
  - injection Hb as -> ->. exfalso. apply Hv.
    apply in_map_iff. now exists (a, v).
  - now apply IH.
Qed.

Ltac distinct_labels :=
  repeat (constructor; [simpl; intuition discriminate|]); constructor.

Lemma season_labels_distinct : NoDup (map snd season_map).
Proof. distinct_labels. Qed.

Lemma weather_labels_distinct : NoDup (map snd weather_map).
Proof. distinct_labels. Qed.

Lemma day_labels_distinct : NoDup (map snd day_map).
Proof. distinct_labels. Qed.

Lemma month_labels_distinct : NoDup (map snd month_map).
Proof. distinct_labels. Qed.

(** X6. The labels tell the codes apart: two rows that get the same season
    name (respectively weather description, day name, month name), not
    missing, have the same season (weather, weekday, month) code. *)
Theorem labels_separate_codes (a b : CleanRow) (s : string) :
  (season_name (enrich a) = Some s -> season_name (enrich b) = Some s ->
   season (base a) = season (base b))
  /\ (weather_desc (enrich a) = Some s -> weather_desc (enrich b) = Some s ->
      weathersit (base a) = weathersit (base b))
  /\ (day_name (enrich a) = Some s -> day_name (enrich b) = Some s ->
      weekday (base a) = weekday (base b))
  /\ (month_name (enrich a) = Some s -> month_name (enrich b) = Some s ->
      mnth (base a) = mnth (base b)).
Proof.
  repeat split; intros Ha Hb.
  - exact (dict_get_injective season_map _ _ s season_labels_distinct Ha Hb).
  - exact (dict_get_injective weather_map _ _ s weather_labels_distinct Ha Hb).
  - exact (dict_get_injective day_map _ _ s day_labels_distinct Ha Hb).
  - exact (dict_get_injective month_map _ _ s month_labels_distinct Ha Hb).
Qed.

Lemma weekend_day_iff (x : Z) : weekend_day x = true <-> x = 0 \/ x = 6.
Proof.
  unfold weekend_day. simpl.
  rewrite !orb_true_iff, !Z.eqb_eq. intuition discriminate.
Qed.

(** ** Sorted keys *)

Section SortFacts.

Context {K : Type}.
Variable ltb : K -> K -> bool.
Hypothesis ltb_asym : forall a b, ltb a b = true -> ltb b a = false.
Hypothesis le_trans :
  forall a b c, ltb b a = false -> ltb c b = false -> ltb c a = false.

Lemma insert_sorted_sorted (k : K) (l : list K) :
  StronglySorted (fun a b => ltb b a = false) l ->
  StronglySorted (fun a b => ltb b a = false) (insert_sorted ltb k l).
Proof.
  induction 1 as [|x l Hs IH Hx]; simpl.
  - repeat constructor.
  - destruct (ltb x k) eqn:E.
    + constructor; [assumption|].
      eapply Permutation_Forall;
        [symmetry; apply insert_sorted_Permutation|].
      constructor; [now apply ltb_asym | assumption].
    + constructor; [now constructor|].
      constructor; [assumption|].
      eapply Forall_impl; [|exact Hx]. intros y Hy. simpl in *.
      now apply (le_trans k x y).
Qed.

Lemma sort_keys_sorted (l : list K) :
  StronglySorted (fun a b => ltb b a = false) (sort_keys ltb l).
Proof.
  induction l as [|x l IH]; simpl;
    [constructor | now apply insert_sorted_sorted].
Qed.

Hypothesis le_antisym :
  forall a b, ltb a b = false -> ltb b a = false -> a = b.

Lemma sorted_NoDup_strict (l : list K) :
  StronglySorted (fun a b => ltb b a = false) l -> NoDup l ->
  StronglySorted (fun a b => ltb a b = true) l.
Proof.
  induction 1 as [|x l Hs IH Hx]; intros Hnd; [constructor|].
  inversion Hnd as [|? ? Hnotin Hnd']; subst.
  constructor; [now apply IH|].
  rewrite Forall_forall in *. intros y Hy.
  destruct (ltb x y) eqn:E; [reflexivity|].
  exfalso. apply Hnotin. rewrite (le_antisym x y E (Hx y Hy)). assumption.
Qed.

End SortFacts.

Lemma Date_ltb_asym (a b : Date.t) :
  Date.ltb a b = true -> Date.ltb b a = false.
Proof. destruct a, b. intros H. date_order. Qed.

Lemma Date_le_trans (a b c : Date.t) :
  Date.ltb b a = false -> Date.ltb c b = false -> Date.ltb c a = false.
Proof. destruct a, b, c. intros H1 H2. date_order. Qed.

Lemma Date_le_antisym (a b : Date.t) :
  Date.ltb a b = false -> Date.ltb b a = false -> a = b.
Proof.
  destruct a as [y m d], b as [y' m' d']. intros H1 H2.
  assert (H : y = y' /\ m = m' /\ d = d') by date_order.
  destruct H as (-> & -> & ->). reflexivity.
Qed.

Ltac year_week_order :=
  unfold year_week_ltb in *; simpl in *;
  rewrite ?orb_true_iff, ?andb_true_iff, ?orb_false_iff, ?andb_false_iff,
    ?Z.ltb_lt, ?Z.eqb_eq, ?Z.ltb_ge, ?Z.eqb_neq in *;
  lia.

Lemma year_week_ltb_asym (a b : Z * Z) :
  year_week_ltb a b = true -> year_week_ltb b a = false.
Proof. destruct a, b. intros H. year_week_order. Qed.

Lemma year_week_le_trans (a b c : Z * Z) :
  year_week_ltb b a = false -> year_week_ltb c b = false ->
  year_week_ltb c a = false.
Proof. destruct a, b, c. intros H1 H2. year_week_order. Qed.

Lemma year_week_le_antisym (a b : Z * Z) :
  year_week_ltb a b = false -> year_week_ltb b a = false -> a = b.
Proof.
  destruct a as [y w], b as [y' w']. intros H1 H2.
  assert (H : y = y' /\ w = w') by year_week_order.
  destruct H as (-> & ->). reflexivity.
Qed.

Lemma unique_sorted_length {K : Type} (eqb ltb : K -> K -> bool)
  (l : list K) :
  (length (unique_sorted eqb ltb l) <= length l)%nat.
Proof.
  unfold unique_sorted.
  rewrite (Permutation_length (sort_keys_Permutation ltb _)).
  apply drop_duplicates_from_length.
Qed.

(** ** transform_aggregations: the rows of the two aggregates *)

Lemma groupby_keys {K A : Type} (eqb ltb : K -> K -> bool) (key : A -> K)
  (df : list A) :
  map fst (groupby eqb ltb key df) = unique_sorted eqb ltb (map key df).
Proof.
  unfold groupby. rewrite map_map. simpl. apply map_id.
Qed.

Section AggregateRows.

Variable mean : list float -> float.

Lemma daily_of_flags (g : Date.t * list EnrichedRow) (d : Daily.t) :
  daily_of mean g = Ok d ->
  Daily.peak_hours_count d
  = sum64 (map (fun e => Z.b2z (is_peak_hour e)) (snd g))
  /\ Daily.is_weekend d = existsb is_weekend (snd g).
Proof.
  destruct g as [k x]. simpl.
  destruct (most_common (map (fun e => weathersit (row_of e)) x)) as [w|];
    [|discriminate].
  intros E. injection E as <-. simpl. auto.
Qed.

Lemma daily_dates (df : list EnrichedRow) (daily : list Daily.t) :
  traverse (daily_of mean)
    (groupby Date.eqb Date.ltb (fun e => dteday (row_of e)) df) = Ok daily ->
  map Daily.date daily
  = unique_sorted Date.eqb Date.ltb (map enriched_date df).
Proof.
  intros E. apply traverse_Forall2 in E.
  rewrite (Forall2_map_eq _ fst Daily.date _ _ E).
  - apply groupby_keys.
  - intros g d H. now apply daily_of_fields in H.
Qed.

Lemma weekly_keys (df : list EnrichedRow) :
  map weekly_key
    (map (weekly_of mean)
       (groupby year_week_eqb year_week_ltb year_week (map add_year_week df)))
  = unique_sorted year_week_eqb year_week_ltb
      (map (fun e => (Date.year (enriched_date e),
                      Date.iso_week (enriched_date e))) df).
Proof.
  rewrite map_map.
  rewrite (map_ext _ fst) by (intros [[y w] x]; reflexivity).
  rewrite groupby_keys, map_map. reflexivity.
Qed.

End AggregateRows.

(** X9. The daily aggregate has one row per date of the table: its dates are
    strictly increasing, they are exactly the dates that occur in the
    table, and [daily_records] counts them, so it never exceeds the number
    of rows. *)
Theorem daily_one_row_per_date (mean : list float -> float)
  (df : list EnrichedRow) :
  exists out,
    transform_aggregations mean df = Ok out
    /\ StronglySorted (fun a b => Date.ltb a b = true)
         (map Daily.date (daily_agg out))
    /\ (forall d, In d (map Daily.date (daily_agg out))
                  <-> exists e, In e df /\ enriched_date e = d)
    /\ daily_records out = length (daily_agg out)
    /\ (daily_records out <= length df)%nat.
Proof.
  destruct (transform_aggregations_Ok mean df) as (daily & Ed & ->).
  eexists. split; [reflexivity|]. simpl.
  pose proof (daily_dates mean df daily Ed) as Hd.
  rewrite Hd. repeat split.
  - apply (sorted_NoDup_strict Date.ltb Date_le_antisym).
    + apply (sort_keys_sorted Date.ltb Date_ltb_asym Date_le_trans).
    + apply (unique_sorted_NoDup Date.eqb Date.ltb Date_eqb_eq).
  - intros H. apply (proj1 (unique_sorted_In Date.eqb Date.ltb Date_eqb_eq _ _)) in H.
    apply in_map_iff in H. destruct H as (e & <- & He). eauto.
  - intros (e & He & <-). apply (unique_sorted_In Date.eqb Date.ltb Date_eqb_eq).
    now apply in_map.
  - rewrite <- (length_map Daily.date), Hd, <- (length_map enriched_date df).
    apply unique_sorted_length.
Qed.

(** X10. The weekly aggregate has one row per (year, week) key of the table,
    where the key of a row is the calendar year of its date paired with the
    ISO week number of its date: the keys are strictly increasing (by year,
    then by week), they are exactly the keys that occur, and there are never
    more weekly rows than daily rows. *)
Theorem weekly_one_row_per_key (mean : list float -> float)
  (df : list EnrichedRow) :
  exists out,
    transform_aggregations mean df = Ok out
    /\ StronglySorted (fun a b => year_week_ltb a b = true)
         (map weekly_key (weekly_agg out))
    /\ (forall k, In k (map weekly_key (weekly_agg out))
                  <-> exists e, In e df
                                /\ (Date.year (enriched_date e),
                                    Date.iso_week (enriched_date e)) = k)
    /\ weekly_records out = length (weekly_agg out)
    /\ (weekly_records out <= daily_records out)%nat.
Proof.
  destruct (transform_aggregations_Ok mean df) as (daily & Ed & ->).
  eexists. split; [reflexivity|]. simpl.
  pose proof (daily_dates mean df daily Ed) as Hd.
  pose proof (weekly_keys mean df) as Hw.
  rewrite Hw. repeat split.
  - apply (sorted_NoDup_strict year_week_ltb year_week_le_antisym).
    + apply (sort_keys_sorted year_week_ltb year_week_ltb_asym
               year_week_le_trans).
    + apply (unique_sorted_NoDup year_week_eqb year_week_ltb year_week_eqb_eq).
  - intros H. apply (proj1 (unique_sorted_In year_week_eqb year_week_ltb year_week_eqb_eq _ _)) in H.
    apply in_map_iff in H. destruct H as (e & <- & He). eauto.
  - intros (e & He & <-). apply (unique_sorted_In year_week_eqb year_week_ltb year_week_eqb_eq).
    now apply (in_map (fun e0 => (Date.year (enriched_date e0),
                                  Date.iso_week (enriched_date e0)))).
  - rewrite <- (length_map weekly_key), Hw.
    rewrite <- (length_map Daily.date daily), Hd.
    rewrite <- (length_map (fun d => (Date.year d, Date.iso_week d))
                  (unique_sorted Date.eqb Date.ltb (map enriched_date df))).
    apply NoDup_incl_length.
    + apply (unique_sorted_NoDup year_week_eqb year_week_ltb year_week_eqb_eq).
    + intros k Hk. apply (proj1 (unique_sorted_In year_week_eqb year_week_ltb year_week_eqb_eq _ _)) in Hk.
      apply in_map_iff in Hk. destruct Hk as (e & <- & He).
      apply (in_map (fun d => (Date.year d, Date.iso_week d))).
      apply (unique_sorted_In Date.eqb Date.ltb Date_eqb_eq). now apply in_map.
Qed.

Section OtherSums.

Variable mean : list float -> float.



End OtherSums.


(** X12. Every weekly row has a start and an end date. Both are dates of rows
    of the table that fall under the row's (year, week) key, the start is
    not after the end, and every row of the table under that key is dated
    between them. *)
Theorem week_bounds (mean : list float -> float) (df : list EnrichedRow) :
  exists out,
    transform_aggregations mean df = Ok out
    /\ forall w, In w (weekly_agg out) ->
         exists a b,
           Weekly.week_start w = Some a /\ Weekly.week_end w = Some b
           /\ Date.ltb b a = false
           /\ (exists e, In e df /\ enriched_date e = a)
           /\ (exists e, In e df /\ enriched_date e = b)
           /\ (Date.year a, Date.iso_week a) = weekly_key w
           /\ (Date.year b, Date.iso_week b) = weekly_key w
           /\ forall e, In e df ->
                (Date.year (enriched_date e), Date.iso_week (enriched_date e))
                = weekly_key w ->
                Date.ltb (enriched_date e) a = false
                /\ Date.ltb b (enriched_date e) = false.
Proof.
  destruct (transform_aggregations_Ok mean df) as (daily & Ed & ->).
  eexists. split; [reflexivity|]. simpl. intros w Hw.
  apply in_map_iff in Hw. destruct Hw as ([k x] & <- & Hg).
  pose proof (groupby_group _ _ _ year_week_eqb_eq _ _ Hg) as (Hs & _ & Hne).
  simpl in Hs, Hne.
  assert (Hx : forall r, In r x <->
                 exists e, In e df /\ r = add_year_week e
                           /\ (Date.year (enriched_date e),
                               Date.iso_week (enriched_date e)) = k).
  { intros r. rewrite Hs, filter_In, in_map_iff, year_week_eqb_eq. split.
    - intros [(e & <- & He) Hk]. exists e. auto.
    - intros (e & He & -> & Hk). split; [eauto | exact Hk]. }
  set (dates := map dteday (map (fun f => row_of (enriched f)) x)).
  assert (Hdates : forall d, In d dates ->
                     exists e, In e df /\ enriched_date e = d
                               /\ (Date.year d, Date.iso_week d) = k).
  { intros d Hd. unfold dates in Hd. rewrite map_map in Hd.
    apply in_map_iff in Hd. destruct Hd as (r & <- & Hr).
    apply Hx in Hr. destruct Hr as (e & He & -> & Hk). exists e. auto. }
  assert (Hne' : dates <> []).
  { unfold dates. destruct x; [congruence | discriminate]. }
  destruct (min_of_least _ Hne') as (a & Ea & Ha & Hmin).
  destruct (max_of_greatest _ Hne') as (b & Eb & Hb & Hmax).
  exists a, b. unfold weekly_key. simpl. fold dates.
  destruct (Hdates a Ha) as (ea & Hea & Hda & Hka).
  destruct (Hdates b Hb) as (eb & Heb & Hdb & Hkb).
  assert (Hk : k = (fst k, snd k)) by now destruct k.
  rewrite <- Hk.
  split; [exact Ea|]. split; [exact Eb|].
  split; [apply Hmax; exact Ha|].
  split; [eauto|]. split; [eauto|].
  split; [exact Hka|]. split; [exact Hkb|].
  intros e He Hke.
  assert (Hin : In (enriched_date e) dates).
  { unfold dates. rewrite map_map. apply in_map_iff.
    exists (add_year_week e). split; [reflexivity|].
    apply Hx. exists e. auto. }
  split; [apply Hmin | apply Hmax]; exact Hin.
Qed.

(** ** Flags across the stages *)






(** X7. The weekend flag is set on a row exactly when its weekday code is 0 or
    6, and on a day of the daily aggregate exactly when some row of that
    day has weekday code 0 or 6. *)
Theorem weekend_flags (mean : list float -> float) (df : list CleanRow) :
  exists f a,
    transform_feature_engineering df = Ok f
    /\ transform_aggregations mean (featured_data f) = Ok a
    /\ Forall (fun e => is_weekend e = true
                        <-> weekday (row_of e) = 0 \/ weekday (row_of e) = 6)
         (featured_data f)
    /\ forall d, In d (daily_agg a) ->
         (Daily.is_weekend d = true
          <-> exists c, In c df
                        /\ dteday (base c) = Daily.date d
                        /\ (weekday (base c) = 0 \/ weekday (base c) = 6)).
Proof.
  destruct (transform_aggregations_Ok mean (map enrich df))
    as (daily & Ed & Ea).
  do 2 eexists. split; [reflexivity|]. simpl. split; [exact Ea|]. simpl.
  split.
  - apply Forall_forall. intros e He. apply in_map_iff in He.
    destruct He as (c & <- & _). simpl. apply weekend_day_iff.
  - intros d Hd. apply traverse_Forall2 in Ed.
    destruct (Forall2_In_r _ _ _ _ Ed Hd) as (g & Hg & Hgd).
    pose proof (daily_of_fields mean _ _ Hgd) as (Hdate & _).
    pose proof (daily_of_flags mean _ _ Hgd) as (_ & ->).
    pose proof (groupby_group _ _ _ Date_eqb_eq _ _ Hg) as (Hs & _).
    rewrite Hdate, Hs, existsb_exists. split.
    + intros (e & He & Hwe). apply filter_In in He. destruct He as [He Hk].
      apply in_map_iff in He. destruct He as (c & <- & Hc).
      apply Date_eqb_eq in Hk. exists c. repeat split; try assumption.
      now apply weekend_day_iff.
    + intros (c & Hc & Hk & Hwe). exists (enrich c). split.
      * apply filter_In. split; [now apply in_map|].
        apply Date_eqb_eq. exact Hk.
      * now apply weekend_day_iff.
Qed.


(** ** The ISO week number of a date *)

Lemma days_before_year_succ (y : Z) :
  Date.days_before_year (y + 1) - Date.days_before_year y
  = if Date.is_leap y then 366 else 365.
Proof.
  unfold Date.days_before_year, Date.is_leap.
  replace (y + 1 - 1) with y by ring.
  destruct (Z.eqb_spec (y mod 4) 0), (Z.eqb_spec (y mod 100) 0),
    (Z.eqb_spec (y mod 400) 0); simpl;
    Z.div_mod_to_equations; lia.
Qed.

Lemma toordinal_in_year (d : Date.t) :
  date_valid d = true ->
  Date.days_before_year (Date.year d) + 1 <= Date.toordinal d
  <= Date.days_before_year (Date.year d + 1).
Proof.
  destruct d as [y m dd]. unfold date_valid, Date.toordinal, Date.ymd2ord.
  simpl. rewrite !andb_true_iff, !Z.leb_le. intros [[[Hm1 Hm2] Hd1] Hd2].
  pose proof (days_before_year_succ y) as Hy.
  unfold days_in_month, Date.days_before_month in *.
  assert (Hm : m = 1 \/ m = 2 \/ m = 3 \/ m = 4 \/ m = 5 \/ m = 6 \/ m = 7
               \/ m = 8 \/ m = 9 \/ m = 10 \/ m = 11 \/ m = 12) by lia.
  destruct (Date.is_leap y);
    repeat (destruct Hm as [Hm|Hm]; [subst m; simpl in *; lia|]);
    subst m; simpl in *; lia.
Qed.

(** The Monday that starts ISO week 1 lies within three days of January 1
    and all such Mondays are congruent modulo 7. *)
Lemma isoweek1monday_near (y : Z) :
  Date.days_before_year y - 2 <= Date.isoweek1monday y
  <= Date.days_before_year y + 4
  /\ (Date.isoweek1monday y + 6) mod 7 = 0.
Proof.
  unfold Date.isoweek1monday, Date.ymd2ord, Date.days_before_month. simpl.
  set (f := Date.days_before_year y + 0 + 1).
  assert (Hf : f = Date.days_before_year y + 1) by (unfold f; ring).
  clearbody f.
  destruct (Z.ltb_spec 3 ((f + 6) mod 7));
    Z.div_mod_to_equations; lia.
Qed.

Lemma isoweek1monday_succ (y : Z) :
  Date.isoweek1monday (y + 1) - Date.isoweek1monday y = 364
  \/ Date.isoweek1monday (y + 1) - Date.isoweek1monday y = 371.
Proof.
  pose proof (isoweek1monday_near y) as [H1 H2].
  pose proof (isoweek1monday_near (y + 1)) as [H3 H4].
  pose proof (days_before_year_succ y) as Hy.
  destruct (Date.is_leap y); Z.div_mod_to_equations; lia.
Qed.

Lemma iso_week_range (d : Date.t) :
  date_valid d = true -> 1 <= Date.iso_week d <= 53.
Proof.
  intros Hv. pose proof (toordinal_in_year d Hv) as Hord.
  unfold Date.iso_week, Date.isocalendar.
  pose proof (isoweek1monday_near (Date.year d)) as [Hw _].
  pose proof (isoweek1monday_succ (Date.year d)) as Hnext.
  pose proof (isoweek1monday_succ (Date.year d - 1)) as Hprev.
  replace (Date.year d - 1 + 1) with (Date.year d) in Hprev by ring.
  set (today := Date.toordinal d) in *.
  set (W := Date.isoweek1monday (Date.year d)) in *.
  set (Wn := Date.isoweek1monday (Date.year d + 1)) in *.
  set (Wp := Date.isoweek1monday (Date.year d - 1)) in *.
  set (f := Date.days_before_year (Date.year d)) in *.
  clearbody today W Wn Wp f.
  destruct (Z.ltb_spec ((today - W) / 7) 0) as [Hneg|Hpos]; simpl.
  - Z.div_mod_to_equations. lia.
  - destruct (Z.leb_spec 52 ((today - W) / 7)) as [H52|H52];
      destruct (Z.leb_spec Wn today) as [Hn|Hn]; simpl;
      Z.div_mod_to_equations; lia.
Qed.

(** X13. When every date of the table is a calendar date, the [week] column of
    the frame the Aggregator pushes and of the weekly aggregate lies
    between 1 and 53, and the [year] of a pushed row is the calendar year
    of its date. *)
Theorem week_numbers_in_range (mean : list float -> float)
  (df : list EnrichedRow) :
  Forall (fun e => date_valid (enriched_date e) = true) df ->
  exists out,
    transform_aggregations mean df = Ok out
    /\ Forall (fun r => 1 <= week r <= 53
                        /\ year r = Date.year (enriched_date (enriched r)))
         (final_data out)
    /\ Forall (fun w => 1 <= Weekly.week w <= 53) (weekly_agg out).
Proof.
  intros Hvalid. rewrite Forall_forall in Hvalid.
  destruct (transform_aggregations_Ok mean df) as (daily & Ed & ->).
  eexists. split; [reflexivity|]. simpl. split.
  - apply Forall_forall. intros r Hr. apply in_map_iff in Hr.
    destruct Hr as (e & <- & He). simpl. split; [|reflexivity].
    apply iso_week_range. now apply Hvalid.
  - apply Forall_forall. intros w Hw.
    assert (Hk : In (weekly_key w)
                   (map weekly_key
                      (map (weekly_of mean)
                         (groupby year_week_eqb year_week_ltb year_week
                            (map add_year_week df)))))
      by now apply in_map.
    rewrite weekly_keys in Hk.
    apply (proj1 (unique_sorted_In year_week_eqb year_week_ltb
                    year_week_eqb_eq _ _)) in Hk.
    apply in_map_iff in Hk. destruct Hk as (e & Hkey & He).
    unfold weekly_key in Hkey. injection Hkey as _ Hweek.
    rewrite <- Hweek. apply iso_week_range. now apply Hvalid.
Qed.

Lemma week_in_list (w : Z) :
  1 <= w <= 53 -> In w (map Z.of_nat (seq 1 53)).
Proof.
  intros H. apply in_map_iff. exists (Z.to_nat w). split; [lia|].
  apply in_seq. lia.
Qed.

(** X14. A run that returns on a table of calendar dates writes at most 106
    weekly rows: the Validator leaves only the years 2011 and 2012, and a
    year has at most 53 week numbers. *)
Theorem run_weekly_rows_bounded (mean : list float -> float)
  (columns : list string) (df : list Row) (r : Run) :
  Forall (fun x => date_valid (dteday x) = true) df ->
  run_tasks mean columns df = Ok r ->
  (weekly_records (run_aggregated r) <= 106)%nat.
Proof.
  intros Hvalid Hrun. rewrite Forall_forall in Hvalid.
  unfold run_tasks in Hrun.
  destruct (extract_and_validate columns df) as [v|e0] eqn:Ev;
    [|discriminate].
  destruct (extract_and_validate_Ok_inv _ _ _ Ev)
    as (_ & _ & Hyears & Hdata & _).
  remember (map enrich
              (cleaned_data (clean_frame (fun r => r) (validated_data v))))
    as fd eqn:Hfd.
  assert (Hrun' :
            (a <- transform_aggregations mean fd ;;
             Ok {| run_validated := v;
                   run_cleaned := clean_frame (fun r => r) (validated_data v);
                   run_featured :=
                     {| featured_data := fd; featured_records := length fd;
                        total_columns := 27 |};
                   run_aggregated := a |}) = Ok r)
    by (rewrite Hfd; exact Hrun).
  clear Hrun.
  destruct (transform_aggregations_Ok mean fd) as (daily & _ & Ea).
  rewrite Ea in Hrun'. pose proof (weekly_keys mean fd) as Hkeys.
  cbv beta iota delta [bind] in Hrun'. injection Hrun' as <-.
  cbn [run_aggregated weekly_records].
  rewrite <- (length_map weekly_key), Hkeys. subst fd.
  change 106%nat
    with (length (list_prod [2011; 2012] (map Z.of_nat (seq 1 53)))).
  apply NoDup_incl_length.
  - apply (unique_sorted_NoDup year_week_eqb year_week_ltb year_week_eqb_eq).
  - intros [y w] Hk.
    apply (proj1 (unique_sorted_In year_week_eqb year_week_ltb
                    year_week_eqb_eq _ _)) in Hk.
    apply in_map_iff in Hk. destruct Hk as (e & Hkey & He).
    injection Hkey as <- <-.
    apply in_map_iff in He. destruct He as (c & <- & Hc).
    apply clean_frame_rows in Hc. destruct Hc as [Hc _].
    rewrite Hdata in Hc.
    apply in_prod.
    + pose proof (Hyears _ Hc) as Hy. unfold enriched_date, row_of. simpl.
      destruct Hy as [-> | ->]; simpl; tauto.
    + apply week_in_list, iso_week_range. now apply Hvalid.
Qed.

(** ** explore_data.py *)

Lemma total_filter_negb {A : Type} (f : A -> Z) (p : A -> bool)
  (l : list A) :
  total (map f (filter p l)) + total (map f (filter (fun a => negb (p a)) l))
  = total (map f l).
Proof.
  induction l as [|a l IH]; simpl; [reflexivity|].
  destruct (p a); simpl; lia.
Qed.

(** X15. The rentals in peak hours and the rentals outside them add up (as
    int64 values) to the sum of the [cnt] column: every row is counted on
    exactly one side. *)
Theorem peak_and_non_peak_rentals (df_full : list FinalRow) :
  add64 (peak_rentals df_full) (non_peak_rentals df_full)
  = sum64 (map full_cnt df_full).
Proof.
  unfold peak_rentals, non_peak_rentals, add64.
  rewrite !sum64_total, wrap64_idem_add_l, wrap64_idem_add_r.
  f_equal.
  rewrite (filter_ext (fun r => Bool.eqb (is_peak_hour (enriched r)) true)
             (fun r => is_peak_hour (enriched r)))
    by (intros r; now destruct (is_peak_hour (enriched r))).
  rewrite (filter_ext (fun r => Bool.eqb (is_peak_hour (enriched r)) false)
             (fun r => negb (is_peak_hour (enriched r))))
    by (intros r; now destruct (is_peak_hour (enriched r))).
  apply total_filter_negb.
Qed.

(** The invariant of the scan behind [idxmax]: [bi] is the first position
    of the greatest value [b] of the prefix [p] scanned so far. *)
Lemma argmax_from_first_max (l p : list Z) (bi : nat) (b : Z) :
  nth_error p bi = Some b ->
  (forall y, In y p -> y <= b) ->
  (forall j y, (j < bi)%nat -> nth_error p j = Some y -> y < b) ->
  exists m,
    nth_error (p ++ l) (argmax_from bi b (length p) l) = Some m
    /\ (forall y, In y (p ++ l) -> y <= m)
    /\ forall j y, (j < argmax_from bi b (length p) l)%nat ->
                   nth_error (p ++ l) j = Some y -> y < m.
Proof.
  revert p bi b. induction l as [|x l IH]; intros p bi b Hb Hmax Hfirst.
  - simpl. rewrite app_nil_r. exists b. auto.
  - assert (Hbi : (bi < length p)%nat)
      by (apply nth_error_Some; congruence).
    replace (p ++ x :: l) with ((p ++ [x]) ++ l)
      by (rewrite <- app_assoc; reflexivity).
    simpl. destruct (Z.ltb_spec b x) as [Hlt|Hge].
    + replace (S (length p)) with (length (p ++ [x]))
        by (rewrite length_app; simpl; lia).
      apply IH.
      * rewrite nth_error_app2 by lia.
        replace (length p - length p)%nat with 0%nat by lia. reflexivity.
      * intros y Hy. apply in_app_or in Hy. destruct Hy as [Hy|[<-|[]]].
        -- specialize (Hmax y Hy). lia.
        -- lia.
      * intros j y Hj Hy. rewrite nth_error_app1 in Hy by lia.
        apply nth_error_In in Hy. specialize (Hmax y Hy). lia.
    + replace (S (length p)) with (length (p ++ [x]))
        by (rewrite length_app; simpl; lia).
      apply IH.
      * rewrite nth_error_app1 by lia. assumption.
      * intros y Hy. apply in_app_or in Hy. destruct Hy as [Hy|[<-|[]]].
        -- now apply Hmax.
        -- lia.
      * intros j y Hj Hy. rewrite nth_error_app1 in Hy by lia. eauto.
Qed.

Lemma argmin_from_first_min (l p : list Z) (bi : nat) (b : Z) :
  nth_error p bi = Some b ->
  (forall y, In y p -> b <= y) ->
  (forall j y, (j < bi)%nat -> nth_error p j = Some y -> b < y) ->
  exists m,
    nth_error (p ++ l) (argmin_from bi b (length p) l) = Some m
    /\ (forall y, In y (p ++ l) -> m <= y)
    /\ forall j y, (j < argmin_from bi b (length p) l)%nat ->
                   nth_error (p ++ l) j = Some y -> m < y.
Proof.
  revert p bi b. induction l as [|x l IH]; intros p bi b Hb Hmin Hfirst.
  - simpl. rewrite app_nil_r. exists b. auto.
  - assert (Hbi : (bi < length p)%nat)
      by (apply nth_error_Some; congruence).
    replace (p ++ x :: l) with ((p ++ [x]) ++ l)
      by (rewrite <- app_assoc; reflexivity).
    simpl. destruct (Z.ltb_spec x b) as [Hlt|Hge].
    + replace (S (length p)) with (length (p ++ [x]))
        by (rewrite length_app; simpl; lia).
      apply IH.
      * rewrite nth_error_app2 by lia.
        replace (length p - length p)%nat with 0%nat by lia. reflexivity.
      * intros y Hy. apply in_app_or in Hy. destruct Hy as [Hy|[<-|[]]].
        -- specialize (Hmin y Hy). lia.
        -- lia.
      * intros j y Hj Hy. rewrite nth_error_app1 in Hy by lia.
        apply nth_error_In in Hy. specialize (Hmin y Hy). lia.
    + replace (S (length p)) with (length (p ++ [x]))
        by (rewrite length_app; simpl; lia).
      apply IH.
      * rewrite nth_error_app1 by lia. assumption.
      * intros y Hy. apply in_app_or in Hy. destruct Hy as [Hy|[<-|[]]].
        -- now apply Hmin.
        -- lia.
      * intros j y Hj Hy. rewrite nth_error_app1 in Hy by lia. eauto.
Qed.

Lemma idxmax_first_max (l : list Z) :
  l <> [] ->
  exists j m,
    idxmax l = Some j /\ nth_error l j = Some m
    /\ (forall y, In y l -> y <= m)
    /\ forall j' y, (j' < j)%nat -> nth_error l j' = Some y -> y < m.
Proof.
  destruct l as [|x l]; [congruence|]. intros _.
  destruct (argmax_from_first_max l [x] 0 x) as (m & H1 & H2 & H3).
  - reflexivity.
  - intros y [<-|[]]. lia.
  - intros j y Hj. lia.
  - exists (argmax_from 0 x 1 l), m. simpl in *. auto.
Qed.

Lemma idxmin_first_min (l : list Z) :
  l <> [] ->
  exists j m,
    idxmin l = Some j /\ nth_error l j = Some m
    /\ (forall y, In y l -> m <= y)
    /\ forall j' y, (j' < j)%nat -> nth_error l j' = Some y -> m < y.
Proof.
  destruct l as [|x l]; [congruence|]. intros _.
  destruct (argmin_from_first_min l [x] 0 x) as (m & H1 & H2 & H3).
  - reflexivity.
  - intros y [<-|[]]. lia.
  - intros j y Hj. lia.
  - exists (argmin_from 0 x 1 l), m. simpl in *. auto.
Qed.

Lemma fold_max_bounds (l : list Z) (x : Z) :
  In (fold_left Z.max l x) (x :: l)
  /\ forall y, In y (x :: l) -> y <= fold_left Z.max l x.
Proof.
  revert x. induction l as [|a l IH]; intros x; simpl.
  - split; [now left|]. intros y [<-|[]]. lia.
  - destruct (IH (Z.max x a)) as [Hin Hle]. split.
    + destruct Hin as [E|Hin]; [|tauto].
      destruct (Z.max_spec x a) as [[_ Hm]|[_ Hm]]; rewrite Hm in E |- *; tauto.
    + intros y [<-|[<-|Hy]].
      * specialize (Hle (Z.max x a) (or_introl eq_refl)). lia.
      * specialize (Hle (Z.max x a) (or_introl eq_refl)). lia.
      * apply Hle. now right.
Qed.

Lemma fold_min_bounds (l : list Z) (x : Z) :
  In (fold_left Z.min l x) (x :: l)
  /\ forall y, In y (x :: l) -> fold_left Z.min l x <= y.
Proof.
  revert x. induction l as [|a l IH]; intros x; simpl.
  - split; [now left|]. intros y [<-|[]]. lia.
  - destruct (IH (Z.min x a)) as [Hin Hle]. split.
    + destruct Hin as [E|Hin]; [|tauto].
      destruct (Z.min_spec x a) as [[_ Hm]|[_ Hm]]; rewrite Hm in E |- *; tauto.
    + intros y [<-|[<-|Hy]].
      * specialize (Hle (Z.min x a) (or_introl eq_refl)). lia.
      * specialize (Hle (Z.min x a) (or_introl eq_refl)). lia.
      * apply Hle. now right.
Qed.

(** X16. On a daily summary with at least one row, the day reported as having
    the most rentals is the first row whose [total_rentals] is the
    greatest: no row has more, every earlier row has strictly fewer, and
    the total printed with it ([max()]) is that row's total. The day with
    the fewest rentals is, in the same way, the first row with the least
    total. On an empty summary [idxmax] and [idxmin] raise. *)
Theorem busiest_and_quietest_day (df_daily : list Daily.t) :
  (df_daily = [] ->
   busiest_day df_daily = None /\ quietest_day df_daily = None)
  /\ (df_daily <> [] ->
      (exists j d,
          nth_error df_daily j = Some d
          /\ busiest_day df_daily = Some (Daily.date d)
          /\ col_max (map Daily.total_rentals df_daily)
             = Some (Daily.total_rentals d)
          /\ (forall d', In d' df_daily ->
                Daily.total_rentals d' <= Daily.total_rentals d)
          /\ forall j' d', (j' < j)%nat -> nth_error df_daily j' = Some d' ->
               Daily.total_rentals d' < Daily.total_rentals d)
      /\ exists j d,
          nth_error df_daily j = Some d
          /\ quietest_day df_daily = Some (Daily.date d)
          /\ col_min (map Daily.total_rentals df_daily)
             = Some (Daily.total_rentals d)
          /\ (forall d', In d' df_daily ->
                Daily.total_rentals d <= Daily.total_rentals d')
          /\ forall j' d', (j' < j)%nat -> nth_error df_daily j' = Some d' ->
               Daily.total_rentals d < Daily.total_rentals d').
Proof.
  split; [intros ->; split; reflexivity|].
  intros Hne.
  assert (Hne' : map Daily.total_rentals df_daily <> [])
    by (destruct df_daily; [congruence | discriminate]).
  split.
  - destruct (idxmax_first_max _ Hne') as (j & m & Ej & Hj & Hmax & Hfirst).
    rewrite nth_error_map in Hj.
    destruct (nth_error df_daily j) as [d|] eqn:Ed; [|discriminate].
    injection Hj as <-. exists j, d.
    split; [exact Ed|]. split; [unfold busiest_day; now rewrite Ej, Ed|].
    assert (Hall : forall d', In d' df_daily ->
                     Daily.total_rentals d' <= Daily.total_rentals d).
    { intros d' Hd'. apply Hmax. now apply in_map. }
    split; [|split; [exact Hall|]].
    + destruct df_daily as [|d0 rest]; [congruence|]. simpl.
      destruct (fold_max_bounds (map Daily.total_rentals rest)
                  (Daily.total_rentals d0)) as [Hin Hle].
      f_equal. apply Z.le_antisymm.
      * change (Daily.total_rentals d0 :: map Daily.total_rentals rest)
          with (map Daily.total_rentals (d0 :: rest)) in Hin.
        apply in_map_iff in Hin. destruct Hin as (d' & <- & Hd').
        now apply Hall.
      * apply Hle.
        change (Daily.total_rentals d0 :: map Daily.total_rentals rest)
          with (map Daily.total_rentals (d0 :: rest)).
        apply in_map. eapply nth_error_In. exact Ed.
    + intros j' d' Hj' Hd'. apply (Hfirst j'); [assumption|].
      rewrite nth_error_map, Hd'. reflexivity.
  - destruct (idxmin_first_min _ Hne') as (j & m & Ej & Hj & Hmin & Hfirst).
    rewrite nth_error_map in Hj.
    destruct (nth_error df_daily j) as [d|] eqn:Ed; [|discriminate].
    injection Hj as <-. exists j, d.
    split; [exact Ed|]. split; [unfold quietest_day; now rewrite Ej, Ed|].
    assert (Hall : forall d', In d' df_daily ->
                     Daily.total_rentals d <= Daily.total_rentals d').
    { intros d' Hd'. apply Hmin. now apply in_map. }
    split; [|split; [exact Hall|]].
    + destruct df_daily as [|d0 rest]; [congruence|]. simpl.
      destruct (fold_min_bounds (map Daily.total_rentals rest)
                  (Daily.total_rentals d0)) as [Hin Hle].
      f_equal. apply Z.le_antisymm.
      * apply Hle.
        change (Daily.total_rentals d0 :: map Daily.total_rentals rest)
          with (map Daily.total_rentals (d0 :: rest)).
        apply in_map. eapply nth_error_In. exact Ed.
      * change (Daily.total_rentals d0 :: map Daily.total_rentals rest)
          with (map Daily.total_rentals (d0 :: rest)) in Hin.
        apply in_map_iff in Hin. destruct Hin as (d' & <- & Hd').
        now apply Hall.
    + intros j' d' Hj' Hd'. apply (Hfirst j'); [assumption|].
      rewrite nth_error_map, Hd'. reflexivity.
Qed.

(** X17. On a weekly summary with at least one row, the week reported as the
    best is the first row whose [total_rentals] is the greatest; on an empty
    summary [idxmax] raises. *)
Theorem best_week_first_greatest (df_weekly : list Weekly.t) :
  (df_weekly = [] -> best_week df_weekly = None)
  /\ (df_weekly <> [] ->
      exists j w,
        nth_error df_weekly j = Some w
        /\ best_week df_weekly = Some w
        /\ (forall w', In w' df_weekly ->
              Weekly.total_rentals w' <= Weekly.total_rentals w)
        /\ forall j' w', (j' < j)%nat -> nth_error df_weekly j' = Some w' ->
             Weekly.total_rentals w' < Weekly.total_rentals w).
Proof.
  split; [intros ->; reflexivity|].
  intros Hne.
  assert (Hne' : map Weekly.total_rentals df_weekly <> [])
    by (destruct df_weekly; [congruence | discriminate]).
  destruct (idxmax_first_max _ Hne') as (j & m & Ej & Hj & Hmax & Hfirst).
  rewrite nth_error_map in Hj.
  destruct (nth_error df_weekly j) as [w|] eqn:Ew; [|discriminate].
  injection Hj as <-. exists j, w.
  split; [exact Ew|]. split; [unfold best_week; now rewrite Ej|].
  split.
  - intros w' Hw'. apply Hmax. now apply in_map.
  - intros j' w' Hj' Hw'. apply (Hfirst j'); [assumption|].
    rewrite nth_error_map, Hw'. reflexivity.
Qed.

Lemma total_Permutation_map {A : Type} (f : A -> Z) (l l' : list A) :
  Permutation l l' -> total (map f l) = total (map f l').
Proof.
  induction 1; simpl; lia.
Qed.

Lemma labelled_counts_of_label (df_full : list FinalRow) (s : string) :
  map snd (filter (fun p => String.eqb (fst p) s) (labelled_counts df_full))
  = map full_cnt (filter (labelled_as s) df_full).
Proof.
  induction df_full as [|r df IH]; [reflexivity|].
  unfold labelled_counts, labelled_as in *. simpl.
  destruct (season_name (enriched r)) as [s'|]; simpl; [|exact IH].
  destruct (String.eqb s' s); simpl; now rewrite IH.
Qed.

Lemma labelled_counts_all (df_full : list FinalRow) :
  map snd (labelled_counts df_full)
  = map full_cnt (filter has_season_name df_full).
Proof.
  induction df_full as [|r df IH]; [reflexivity|].
  unfold labelled_counts, has_season_name in *. simpl.
  destruct (season_name (enriched r)) as [s'|]; simpl; now rewrite IH.
Qed.

Lemma labelled_counts_labels (df_full : list FinalRow) (s : string) :
  In s (map fst (labelled_counts df_full))
  <-> exists r, In r df_full /\ season_name (enriched r) = Some s.
Proof.
  unfold labelled_counts. rewrite in_map_iff. split.
  - intros ([s' t] & <- & H). apply in_flat_map in H.
    destruct H as (r & Hr & H). exists r. split; [assumption|].
    destruct (season_name (enriched r)); [|destruct H].
    destruct H as [E|[]]. now injection E as -> _.
  - intros (r & Hr & E). exists (s, full_cnt r). split; [reflexivity|].
    apply in_flat_map. exists r. split; [assumption|]. rewrite E. now left.
Qed.

Lemma StronglySorted_weaken {A : Type} (R S : A -> A -> Prop) (l : list A) :
  (forall a b, R a b -> S a b) -> StronglySorted R l -> StronglySorted S l.
Proof.
  intros H. induction 1 as [|a l Hs IH Ha]; constructor; [assumption|].
  eapply Forall_impl; [|exact Ha]. intros b. apply H.
Qed.

(** X18. The breakdown of rentals by season lists every season name that occurs
    once, greatest total first; the total of a name is the sum of [cnt] over
    the rows carrying that name, so a row whose season name is missing is
    counted under no season, and the totals add up to the [cnt] of the rows
    that have a name. *)
Theorem seasonal_breakdown (df_full : list FinalRow) :
  StronglySorted (fun x y => snd y <= snd x) (seasonal df_full)
  /\ NoDup (map fst (seasonal df_full))
  /\ (forall s, In s (map fst (seasonal df_full))
                <-> exists r, In r df_full
                              /\ season_name (enriched r) = Some s)
  /\ (forall s t, In (s, t) (seasonal df_full) ->
        t = sum64 (map full_cnt (filter (labelled_as s) df_full)))
  /\ sum64 (map snd (seasonal df_full))
     = sum64 (map full_cnt (filter has_season_name df_full)).
Proof.
  set (ltb := fun x k : string * Z => snd k <? snd x).
  assert (Hperm : Permutation (seasonal df_full) (season_totals df_full))
    by apply sort_keys_Permutation.
  assert (Hfst : map fst (season_totals df_full)
                 = unique_sorted String.eqb String.ltb
                     (map fst (labelled_counts df_full))).
  { unfold season_totals. rewrite map_map. simpl. apply groupby_keys. }
  split; [|split; [|split; [|split]]].
  - apply (StronglySorted_weaken (fun a b => ltb b a = false)).
    + intros a b H. unfold ltb in H. now apply Z.ltb_ge in H.
    + apply sort_keys_sorted.
      * intros a b H. unfold ltb in *. apply Z.ltb_lt in H.
        apply Z.ltb_ge. lia.
      * intros a b c H1 H2. unfold ltb in *.
        apply Z.ltb_ge in H1, H2. apply Z.ltb_ge. lia.
  - eapply Permutation_NoDup;
      [symmetry; apply Permutation_map; exact Hperm|].
    rewrite Hfst. apply (unique_sorted_NoDup _ _ String.eqb_eq).
  - intros s. split.
    + intros H. apply labelled_counts_labels.
      apply (proj1 (unique_sorted_In String.eqb String.ltb String.eqb_eq
                      _ _)).
      rewrite <- Hfst.
      eapply Permutation_in; [apply Permutation_map; exact Hperm | exact H].
    + intros H. apply labelled_counts_labels in H.
      apply (proj2 (unique_sorted_In String.eqb String.ltb String.eqb_eq
                      _ _)) in H.
      rewrite <- Hfst in H.
      eapply Permutation_in;
        [symmetry; apply Permutation_map; exact Hperm | exact H].
  - intros s t Hin. apply (Permutation_in _ Hperm) in Hin.
    unfold season_totals in Hin. apply in_map_iff in Hin.
    destruct Hin as (g & E & Hg). injection E as <- <-.
    apply (groupby_group _ _ _ String.eqb_eq) in Hg. destruct Hg as (-> & _).
    now rewrite labelled_counts_of_label.
  - rewrite !sum64_total.
    rewrite (total_Permutation_map snd _ _ Hperm).
    rewrite <- !sum64_total. unfold season_totals. rewrite map_map. simpl.
    rewrite (sum64_groupby _ _ _ String.eqb_eq).
    now rewrite labelled_counts_all.
Qed.

(** ** The further theorems on the sample frames *)

Lemma week_numbers_in_range_witness :
  Forall (fun e => date_valid (enriched_date e) = true) sample_enriched
  /\ exists out,
       transform_aggregations naive_mean sample_enriched = Ok out
       /\ Forall (fun r => 1 <= week r <= 53
                           /\ year r = Date.year (enriched_date (enriched r)))
            (final_data out)
       /\ Forall (fun w => 1 <= Weekly.week w <= 53) (weekly_agg out).
Proof.
  assert (H : Forall (fun e => date_valid (enriched_date e) = true)
                sample_enriched)
    by (repeat constructor).
  split; [exact H | exact (week_numbers_in_range naive_mean sample_enriched H)].
Defined.

Lemma run_weekly_rows_bounded_witness :
  Forall (fun x => date_valid (dteday x) = true) sample_rows
  /\ exists r,
       run_tasks naive_mean expected_columns sample_rows = Ok r
       /\ (weekly_records (run_aggregated r) <= 106)%nat.
Proof.
  assert (H : Forall (fun x => date_valid (dteday x) = true) sample_rows)
    by (repeat constructor).
  split; [exact H|].
  destruct (run_tasks naive_mean expected_columns sample_rows) as [r|e] eqn:E.
  - exists r. split; [reflexivity|].
    exact (run_weekly_rows_bounded naive_mean expected_columns sample_rows
             r H E).
  - vm_compute in E. discriminate.
Defined.
